(** * Segment-annotation core of the video emotion annotator (app.py)

    A shallow embedding of the script: the segmenter
    [generate_time_segments], the session store kept in
    [st.session_state], the commit of the edited table, the pending count
    with its status message, and the export of the table.

    Python integers are [Z]; the one float of the program, the quotient
    [duration_sec / SEGMENT_LENGTH], is a binary64 value written as a
    significand and an exponent, with the rounding of the true division
    written out.  The session state is a finite map from strings to
    tables.  Exceptions are explicit: a computation returns a value or
    raises, and the session state mutated before the exception stays
    mutated, as it does in Python. *)

From Stdlib Require Import ZArith Lia String Ascii List DecimalString.
From Stdlib Require Import DecimalPos DecimalN DecimalZ.
From stdpp Require Import base option list strings gmap.

Local Open Scope string_scope.
Local Open Scope list_scope.
Local Open Scope Z_scope.

(** ** Exceptions and outcomes *)

Inductive exn :=
| KeyError (key : string)
| ZeroDivisionError
| OverflowError
| IllegalCharacterError (cell : string).

Inductive outcome (A : Type) :=
| Returned (a : A)
| Raised (e : exn).
Arguments Returned {A} a.
Arguments Raised {A} e.

Global Instance outcome_ret : MRet outcome := fun A a => Returned a.

Global Instance outcome_bind : MBind outcome := fun A B k x =>
  match x with
  | Returned a => k a
  | Raised e => Raised e
  end.

(** ** Python loops that append

    [out = []; for x in xs: out.append(f(x))] *)

Definition for_append {A B} (f : A -> B) (xs : list A) : list B :=
  fold_left (fun out x => out ++ [f x]) xs [].

(** ** Integer true division and [math.ceil]

    [a / b] on two Python ints is the binary64 number nearest to the
    exact quotient, ties to even; it raises [OverflowError] when that
    number is out of range and [ZeroDivisionError] when [b] is zero.  A
    finite binary64 value is written [(m, e)] and stands for [m * 2^e],
    with [|m| <= 2^53] and [-1074 <= e <= 971]. *)

Module Float.

Definition float : Type := Z * Z.

Definition prec : Z := 53.
Definition emin : Z := -1074.
Definition emax : Z := 971.

(** Floor of [n / (d * 2^e)], for [0 < d]. *)
Definition scaled_floor (n d e : Z) : Z :=
  if 0 <=? e then n / (d * 2 ^ e) else (n * 2 ^ (- e)) / d.

(** Nearest integer to [n / d], ties to even, for [0 <= n] and [0 < d]. *)
Definition round_half_even (n d : Z) : Z :=
  let q := n / d in
  let r := n mod d in
  if 2 * r <? d then q
  else if d <? 2 * r then q + 1
  else if Z.even q then q else q + 1.

(** Nearest integer to [n / (d * 2^e)], ties to even. *)
Definition scaled_round (n d e : Z) : Z :=
  if 0 <=? e then round_half_even n (d * 2 ^ e)
  else round_half_even (n * 2 ^ (- e)) d.

(** The exponent of the binary64 number nearest to [n / d], for
    [0 < n] and [0 < d]: the [e] with [2^52 <= n / (d * 2^e) < 2^53],
    not below [emin]. *)
Definition exponent (n d : Z) : Z :=
  let e0 := Z.log2 n - Z.log2 d - prec in
  let e1 := if scaled_floor n d e0 <? 2 ^ prec then e0 else e0 + 1 in
  Z.max e1 emin.

(** [n / d] for [0 <= n] and [0 < d]. *)
Definition div_pos (n d : Z) : outcome float :=
  if n =? 0 then Returned (0, 0)
  else
    let e := exponent n d in
    let m := scaled_round n d e in
    if (emax <? e) || ((e =? emax) && (2 ^ prec <=? m))
    then Raised OverflowError
    else Returned (m, e).

(** [a / b] on Python ints. *)
Definition truediv (a b : Z) : outcome float :=
  if b =? 0 then Raised ZeroDivisionError
  else
    match div_pos (Z.abs a) (Z.abs b) with
    | Returned (m, e) => Returned (Z.sgn a * Z.sgn b * m, e)
    | Raised x => Raised x
    end.

(** [math.ceil(x)]: the least integer not below [m * 2^e]. *)
Definition ceil (x : float) : Z :=
  let '(m, e) := x in
  if 0 <=? e then m * 2 ^ e else - ((- m) / 2 ^ (- e)).

End Float.

(** ** Constants of the script *)

Definition EMOTIONS : list string :=
  [ "尚未標記 (Pending)";
    "Intense Conflict (極度憤怒與厭惡)";
    "Excited Joy (以快樂和驚訝為主)";
    "Emotional Breakdown (悲傷和恐懼伴隨痛苦跡象)";
    "Calm Communication (持續的平靜狀態)";
    "Not Present (角色未出現)" ].

Record VideoInfo := {
  url : string;
  duration_sec : Z;
  roles : list string
}.

Definition VIDEO_DATA : list (string * VideoInfo) :=
  [ ("Marriage Story",
     {| url := "https://www.youtube.com/watch?v=FDFdroN7d0w";
        duration_sec := 259;
        roles := ["Nicole"; "Charlie"] |});
    ("2 Broke Girls",
     {| url := "https://www.youtube.com/watch?v=Wfkaq1t7C9o";
        duration_sec := 181;
        roles := ["Max"; "Caroline"] |}) ].

Definition SEGMENT_LENGTH : Z := 15.

(** [d[key]] on a dict literal. *)
Fixpoint dict_get {V} (d : list (string * V)) (key : string) : outcome V :=
  match d with
  | [] => Raised (KeyError key)
  | (k, v) :: d' => if String.eqb k key then Returned v else dict_get d' key
  end.

(** ** The segmenter *)

(** [f"{x:02}"]: decimal, sign first, zero-padded to two characters. *)
Definition format_02 (x : Z) : string :=
  let digits := NilZero.string_of_uint (N.to_uint (Z.to_N (Z.abs x))) in
  if x <? 0 then
    "-" +:+ digits
  else
    if (String.length digits <? 2)%nat then "0" +:+ digits else digits.

(** [f"{s // 3600:02}:{(s % 3600) // 60:02}:{s % 60:02}"] *)
Definition format_time (s : Z) : string :=
  format_02 (s / 3600) +:+ ":" +:+ format_02 ((s mod 3600) / 60) +:+ ":"
    +:+ format_02 (s mod 60).

(** The dict appended for one segment. *)
Record Segment := {
  seg_Start_Time : string;
  seg_End_Time : string;
  seconds_start : Z
}.

(** [math.ceil(duration_sec / SEGMENT_LENGTH)] *)
Definition total_segments (duration_sec : Z) : outcome Z :=
  x ← Float.truediv duration_sec SEGMENT_LENGTH;
  mret (Float.ceil x).

(** The locals [start] and [end] of iteration [i]. *)
Definition segment_bounds (duration_sec i : Z) : Z * Z :=
  let start := i * SEGMENT_LENGTH in
  let end_ := Z.min ((i + 1) * SEGMENT_LENGTH) duration_sec in
  (start, end_).

Definition make_segment (bounds : Z * Z) : Segment :=
  let '(start, end_) := bounds in
  {| seg_Start_Time := format_time start;
     seg_End_Time := format_time end_;
     seconds_start := start |}.

Definition generate_time_segments (duration_sec : Z) : outcome (list Segment) :=
  total ← total_segments duration_sec;
  mret (for_append (fun i => make_segment (segment_bounds duration_sec i))
                   (seqZ 0 total)).

(** The values of [start] and [end] in the iterations of the loop of
    [generate_time_segments], in iteration order; the segment appended
    in an iteration is [make_segment] of them. *)
Definition time_spans (duration_sec : Z) : outcome (list (Z * Z)) :=
  total ← total_segments duration_sec;
  mret (for_append (segment_bounds duration_sec) (seqZ 0 total)).

(** ** The annotation table *)

(** Modelled from the spec: the table type is pandas' [DataFrame], which
    is not part of the repository.  A table is the ordered sequence of
    its rows (the AnnotationTable of the data model), and a row carries
    the five columns of the dict built for it in the script, all of them
    strings.  [pd.DataFrame(initial_data)] keeps the rows in list
    order.  The rows do not carry the column index of the frame: that
    of the frame built at creation is [DataFrame_columns] below, and a
    table that went through the editor has the five columns. *)
Record Row := {
  Start_Time : string;
  End_Time : string;
  Role : string;
  Emotion_Label : string;
  Notes : string
}.

Abbreviation DataFrame := (list Row).

Definition pd_DataFrame (data : list Row) : DataFrame := data.

(** The column index of [pd.DataFrame(data)]: the keys of the records,
    in the order of the dict; a frame built from no record has no
    column. *)
Definition DataFrame_columns (data : list Row) : list string :=
  match data with
  | [] => []
  | _ :: _ => ["Start Time"; "End Time"; "Role"; "Emotion Label"; "Notes"]
  end.

(** ** The session state and the script monad

    [st.session_state] maps keys to tables.  A step of the script takes
    the session state and gives an outcome together with the session
    state it leaves behind, whether it returned or raised. *)

Abbreviation session_state := (gmap string DataFrame).

Definition script (A : Type) : Type :=
  session_state -> outcome A * session_state.

Global Instance script_ret : MRet script := fun A a st => (Returned a, st).

Global Instance script_bind : MBind script := fun A B k c st =>
  match c st with
  | (Returned a, st') => k a st'
  | (Raised e, st') => (Raised e, st')
  end.

Definition lift {A} (x : outcome A) : script A := fun st => (x, st).

(** [st.session_state[key]] *)
Definition session_get (key : string) : script DataFrame :=
  fun st =>
    match st !! key with
    | Some df => (Returned df, st)
    | None => (Raised (KeyError key), st)
    end.

(** [st.session_state[key] = df] *)
Definition session_set (key : string) (df : DataFrame) : script unit :=
  fun st => (Returned tt, <[key := df]> st).

(** [f"data_{selected_video}_{selected_role}"] *)
Definition session_key (selected_video selected_role : string) : string :=
  "data_" +:+ selected_video +:+ "_" +:+ selected_role.

(** The rows built from the segments for a new key. *)
Definition initial_row (selected_role : string) (seg : Segment) : Row :=
  {| Start_Time := seg_Start_Time seg;
     End_Time := seg_End_Time seg;
     Role := selected_role;
     Emotion_Label := "尚未標記 (Pending)";
     Notes := EmptyString |}.

Definition initial_data (selected_role : string) (segments : list Segment)
  : list Row :=
  for_append (initial_row selected_role) segments.

(** [if session_key not in st.session_state: ...] *)
Definition init_session_state (key selected_role : string)
    (segments : list Segment) : script unit :=
  fun st =>
    match st !! key with
    | None =>
        session_set key (pd_DataFrame (initial_data selected_role segments)) st
    | Some _ => (Returned tt, st)
    end.

(** ** Pending count and status *)

(** [df[df["Emotion Label"] == "尚未標記 (Pending)"].shape[0]] *)
Definition pending_count (df : DataFrame) : Z :=
  Z.of_nat (length (filter (fun row => Emotion_Label row = "尚未標記 (Pending)") df)).

(** [f"{n}"] on an int. *)
Definition str (n : Z) : string := NilZero.string_of_int (Z.to_int n).

Inductive Message :=
| st_warning (body : string)
| st_success (body : string).

Definition status (pending_count : Z) : Message :=
  if 0 <? pending_count then
    st_warning ("⚠️ 還有 " +:+ str pending_count
                  +:+ " 個段落尚未標記！請盡量完成後再下載。")
  else
    st_success "✅ 所有段落已標記完成！".

Definition is_complete (m : Message) : bool :=
  match m with
  | st_success _ => true
  | st_warning _ => false
  end.

(** The pending sentinel of the data model, and the number of rows whose
    label is that sentinel, counted row by row. *)
Definition PENDING : string := "尚未標記 (Pending)".

Fixpoint rows_pending (table : list Row) : nat :=
  match table with
  | [] => 0%nat
  | row :: table' =>
      if String.eqb (Emotion_Label row) PENDING
      then S (rows_pending table')
      else rows_pending table'
  end.

(** [df["Emotion Label"]] on a frame with the given column index: the
    labels of the rows, or [KeyError] when the frame has no such
    column. *)
Definition getitem_Emotion_Label (columns : list string) (df : DataFrame)
  : outcome (list string) :=
  if existsb (String.eqb "Emotion Label") columns
  then Returned (map Emotion_Label df)
  else Raised (KeyError "Emotion Label").

(** [df[df["Emotion Label"] == "尚未標記 (Pending)"].shape[0]] with the
    column lookup: [pending_count] above is the count on a frame that
    has the column. *)
Definition pending_count_of (columns : list string) (df : DataFrame)
  : outcome Z :=
  labels ← getitem_Emotion_Label columns df;
  mret (Z.of_nat (length (filter (fun label => label = "尚未標記 (Pending)") labels))).

(** The two constant parts of the warning, around the count. *)
Definition WARNING_BEFORE : string := "⚠️ 還有 ".
Definition WARNING_AFTER : string := " 個段落尚未標記！請盡量完成後再下載。".

(** ** The exporter *)

(** Modelled from the spec: the spreadsheet is written by pandas'
    [to_excel] and the openpyxl writer, which are not part of the
    repository.  What is kept of the workbook is its content: one sheet
    with its name, the header row of the five column names and one row
    of cells per table row, in table order, the cell values verbatim.
    The writer keeps the first 32767 characters of a string cell and
    fails on a cell it cannot represent: one that holds, within these
    characters, a control character (codes 0 to 8, 11, 12 and 14 to
    31).  A string is the sequence of its UTF-8 bytes, so a character is
    a byte that is not a continuation byte together with the
    continuation bytes that follow it.  The typing of cells (text,
    formula, error code) and the encoding of the workbook into bytes are
    not modelled. *)
Record Sheet := {
  sheet_name : string;
  header_row : list string;
  data_rows : list (list string)
}.

Definition Workbook : Type := list Sheet.

Definition illegal_character (c : ascii) : bool :=
  let n := N_of_ascii c in
  ((n <=? 8) || ((11 <=? n) && (n <=? 12)) || ((14 <=? n) && (n <=? 31)))%N.

Definition continuation_byte (c : ascii) : bool :=
  let n := N_of_ascii c in ((128 <=? n) && (n <? 192))%N.


(** [value[:n]] *)
Fixpoint take_characters (n : N) (value : string) : string :=
  match value with
  | EmptyString => EmptyString
  | String c value' =>
      if continuation_byte c then String c (take_characters n value')
      else if (n =? 0)%N then EmptyString
      else String c (take_characters (N.pred n) value')
  end.

Definition CELL_LIMIT : N := 32767.

Definition check_string (value : string) : outcome string :=
  let value := take_characters CELL_LIMIT value in
  if existsb illegal_character (list_ascii_of_string value)
  then Raised (IllegalCharacterError value)
  else Returned value.

Fixpoint write_cells (cells : list string) : outcome (list string) :=
  match cells with
  | [] => Returned []
  | c :: cells' =>
      c' ← check_string c;
      rest ← write_cells cells';
      mret (c' :: rest)
  end.

Fixpoint write_rows (rows : list (list string)) : outcome (list (list string)) :=
  match rows with
  | [] => Returned []
  | r :: rows' =>
      r' ← write_cells r;
      rest ← write_rows rows';
      mret (r' :: rest)
  end.

Definition COLUMNS : list string :=
  ["Start Time"; "End Time"; "Role"; "Emotion Label"; "Notes"].

Definition row_cells (row : Row) : list string :=
  [Start_Time row; End_Time row; Role row; Emotion_Label row; Notes row].

(** [df.to_excel(writer, index=False, sheet_name=name)] *)
Definition to_excel (df : DataFrame) (name : string) : outcome Sheet :=
  header ← write_cells COLUMNS;
  body ← write_rows (map row_cells df);
  mret {| sheet_name := name; header_row := header; data_rows := body |}.

Definition convert_df_to_excel (df : DataFrame) : outcome Workbook :=
  sheet ← to_excel df "Sheet1";
  mret [sheet].










(** ** The script

    One run of the script, from the sidebar selections to the download
    button.  The widgets are outside the repository: the selections are
    inputs, and [data_editor] is the table the editor gives back for the
    table it is shown. *)

Record Inputs := {
  annotator_name : string;
  selected_video : string;
  selected_role : string;
  data_editor : DataFrame -> DataFrame
}.

Record Download := {
  download_label : string;
  download_data : Workbook;
  file_name : string;
  mime : string
}.

Record Output := {
  message : Message;
  download_button : Download
}.

(** From the catalogue lookup to [st.session_state[session_key] = edited_df]. *)
Definition annotate (inp : Inputs) : script DataFrame :=
  video_info ← lift (dict_get VIDEO_DATA (selected_video inp));
  segments ← lift (generate_time_segments (duration_sec video_info));
  let key := session_key (selected_video inp) (selected_role inp) in
  init_session_state key (selected_role inp) segments;;
  current ← session_get key;
  let edited_df := data_editor inp current in
  session_set key edited_df;;
  mret edited_df.

(** The output area: status message and download.  The message is shown
    before the workbook is built; it is given here together with the
    download, once the export has returned. *)
Definition export (inp : Inputs) (edited_df : DataFrame) : script Output :=
  let n := pending_count edited_df in
  let msg := status n in
  let name := selected_role inp +:+ ".xlsx" in
  excel_data ← lift (convert_df_to_excel edited_df);
  mret {| message := msg;
          download_button :=
            {| download_label := "下載 Excel (" +:+ name +:+ ")";
               download_data := excel_data;
               file_name := name;
               mime := "application/vnd.openxmlformats-officedocument.spreadsheetml.sheet" |} |}.

Definition main (inp : Inputs) : script Output :=
  edited_df ← annotate inp; export inp edited_df.

(** The run up to the status message (lines 93 to 159): what
    [st.warning] or [st.success] shows, before the export is
    attempted. *)
Definition shown_status (inp : Inputs) : script Message :=
  edited_df ← annotate inp;
  mret (status (pending_count edited_df)).

(** ** What a partition of [[0, D)] into segments of length [L] is *)

Definition span_length (sp : Z * Z) : Z := sp.2 - sp.1.

Definition sum_lengths (spans : list (Z * Z)) : Z :=
  foldr Z.add 0 (span_length <$> spans).

Record contiguous_partition (L D : Z) (spans : list (Z * Z)) : Prop := {
  cp_first : ∀ sp, spans !! 0%nat = Some sp → sp.1 = 0;
  cp_chain : ∀ i sp sp',
      spans !! i = Some sp → spans !! S i = Some sp' → sp.2 = sp'.1;
  cp_last : ∀ sp, last spans = Some sp → sp.2 = D;
  cp_full : ∀ i sp,
      spans !! i = Some sp → (S i < length spans)%nat → span_length sp = L;
  cp_tail : ∀ sp, last spans = Some sp → 0 < span_length sp ≤ L;
  cp_sum : sum_lengths spans = D;
  cp_empty : spans = [] ↔ D = 0
}.

(** The spans of the first [n] iterations of the segmenter's loop. *)
Definition spans_upto (D n : Z) : list (Z * Z) :=
  map (segment_bounds D) (seqZ 0 n).

(** The largest duration up to which the float quotient gives the exact
    number of segments: [15 * 2^50]. *)
Definition exact_limit : Z := 16888498602639360.

(** ** Reading back what the script formats

    Helpers of the proofs about labels, keys and counts: the number
    that a run of decimal digits stands for, the test that a name holds
    no underscore, and the weight of a row in the pending count. *)

Definition parse_digits (s : string) : option Z :=
  (fun d => Z.of_N (N.of_uint d)) <$> NilEmpty.uint_of_string s.

Definition underscore_free (s : string) : bool :=
  forallb (fun c => negb (Ascii.eqb c "_")) (list_ascii_of_string s).

Definition pending_weight (row : Row) : Z :=
  if String.eqb (Emotion_Label row) PENDING then 1 else 0.

(** What a run leaves in the session state, as a function of the state
    it starts from. *)
Definition committed (inp : Inputs) (segments : list Segment)
    (st : session_state) : session_state :=
  let key := session_key (selected_video inp) (selected_role inp) in
  <[key := data_editor inp
             (default (pd_DataFrame (initial_data (selected_role inp) segments))
                      (st !! key))]> st.

(** ** Concrete runs

    Runs of the script on the catalogue, used to evaluate it: the first
    visit of the role Nicole of "Marriage Story" with the table left as
    shown, then an editor that gives back the table without its last
    row, and one that gives back a label outside [EMOTIONS]. *)

Module Runs.

Definition nicole (editor : DataFrame -> DataFrame) : Inputs :=
  {| annotator_name := "User";
     selected_video := "Marriage Story";
     selected_role := "Nicole";
     data_editor := editor |}.

Definition nicole_key : string := session_key "Marriage Story" "Nicole".

Definition first_visit : session_state := (main (nicole id) ∅).2.

Definition relabel (label : string) (row : Row) : Row :=
  {| Start_Time := Start_Time row;
     End_Time := End_Time row;
     Role := Role row;
     Emotion_Label := label;
     Notes := Notes row |}.

Definition drop_last (df : DataFrame) : DataFrame := removelast df.

Definition control_note (row : Row) : Row :=
  {| Start_Time := Start_Time row;
     End_Time := End_Time row;
     Role := Role row;
     Emotion_Label := Emotion_Label row;
     Notes := String (ascii_of_nat 7) EmptyString |}.

Definition returned {A} (r : outcome A * session_state) : bool :=
  match r.1 with Returned _ => true | Raised _ => false end.

End Runs.

(** Further selections: a video outside the catalogue, the other role of
    "Marriage Story", and a role of the other video. *)

Module Visits.

Definition unknown : Inputs :=
  {| annotator_name := "User";
     selected_video := "Parasite";
     selected_role := "Nicole";
     data_editor := id |}.

Definition charlie (editor : DataFrame -> DataFrame) : Inputs :=
  {| annotator_name := "User";
     selected_video := "Marriage Story";
     selected_role := "Charlie";
     data_editor := editor |}.

Definition max (editor : DataFrame -> DataFrame) : Inputs :=
  {| annotator_name := "User";
     selected_video := "2 Broke Girls";
     selected_role := "Max";
     data_editor := editor |}.




Definition clear (df : DataFrame) : DataFrame := [].

Definition cleared_output : Output :=
  {| message := st_success "✅ 所有段落已標記完成！";
     download_button :=
       {| download_label := "下載 Excel (Nicole.xlsx)";
          download_data :=
            [{| sheet_name := "Sheet1";
                header_row := COLUMNS;
                data_rows := [] |}];
          file_name := "Nicole.xlsx";
          mime := "application/vnd.openxmlformats-officedocument.spreadsheetml.sheet" |} |}.

End Visits.

(** * Proofs *)

Lemma Returned_inj {A} (a b : A) : Returned a = Returned b → a = b.
Proof. by intros [= ->]. Qed.

(** ** Loops *)

Lemma for_append_map {A B} (f : A → B) (xs : list A) :
  for_append f xs = map f xs.
Proof.
  unfold for_append.
  enough (H : ∀ acc, fold_left (λ out x, out ++ [f x]) xs acc = acc ++ map f xs)
    by apply (H []).
  induction xs as [|x xs IH]; intros acc; simpl.
  - by rewrite app_nil_r.
  - rewrite IH. by rewrite <- app_assoc.
Qed.

Lemma last_map {A B} (f : A → B) (l : list A) : last (map f l) = f <$> last l.
Proof. apply fmap_last. Qed.

(** ** The float quotient *)

Module FloatFacts.
Import Float.

Lemma round_half_even_bounds n d :
  n / d ≤ round_half_even n d ≤ n / d + 1.
Proof.
  unfold round_half_even.
  repeat match goal with |- context [if ?b then _ else _] => destruct b end; lia.
Qed.

Lemma round_half_even_below n d :
  2 * (n mod d) < d → round_half_even n d = n / d.
Proof.
  intros H. unfold round_half_even.
  destruct (Z.ltb_spec (2 * (n mod d)) d); [done | lia].
Qed.

Lemma round_half_even_above n d :
  d < 2 * (n mod d) → round_half_even n d = n / d + 1.
Proof.
  intros H. unfold round_half_even.
  destruct (Z.ltb_spec (2 * (n mod d)) d); [lia |].
  destruct (Z.ltb_spec d (2 * (n mod d))); [done | lia].
Qed.

Lemma round_half_even_nearest n d :
  0 < d → 2 * Z.abs (n - round_half_even n d * d) ≤ d.
Proof.
  intros Hd. pose proof (Z.div_mod n d ltac:(lia)) as Hn.
  pose proof (Z.mod_pos_bound n d Hd) as Hr.
  unfold round_half_even.
  destruct (Z.ltb_spec (2 * (n mod d)) d); [nia |].
  destruct (Z.ltb_spec d (2 * (n mod d))); [nia |].
  destruct (Z.even (n / d)); nia.
Qed.

Lemma round_half_even_tie n d :
  0 < d → 2 * (n mod d) = d → Z.even (round_half_even n d) = true.
Proof.
  intros Hd Htie. unfold round_half_even.
  destruct (Z.ltb_spec (2 * (n mod d)) d); [lia |].
  destruct (Z.ltb_spec d (2 * (n mod d))); [lia |].
  destruct (Z.even (n / d)) eqn:He; [done |].
  rewrite Z.even_add, He. reflexivity.
Qed.

(** Quotients with known binary64 values: [259 / 15] is
    [0x1.1444444444444p+4], [1 / 15] is [0x1.1111111111111p-4], [1 / 3]
    is [0x1.5555555555555p-2]; [2^53 + 1] and [2^53 + 3] are ties and go
    to the even neighbour; [2^1024] is out of range. *)
Example truediv_values :
  truediv 259 15 = Returned (0x11444444444444, -48) ∧
  truediv 1 15 = Returned (0x11111111111111, -56) ∧
  truediv 1 3 = Returned (0x15555555555555, -54) ∧
  truediv (-1) 3 = Returned (- 0x15555555555555, -54) ∧
  truediv (2 ^ 53 + 1) 1 = Returned (2 ^ 52, 1) ∧
  truediv (2 ^ 53 + 3) 1 = Returned (2 ^ 52 + 2, 1) ∧
  truediv (2 ^ 1024) 1 = Raised OverflowError ∧
  truediv 1 0 = Raised ZeroDivisionError ∧
  ceil (0x11444444444444, -48) = 18 ∧
  ceil (- 0x15555555555555, -54) = 0.
Proof. repeat split; vm_compute; reflexivity. Qed.

(** *** The quotient is correctly rounded

    [up e] and [down e] are the two halves of the scale [2^e]:
    [n / (d * 2^e)] is [(n * down e) / (d * up e)]. *)

Lemma up_down_pos e : 0 < 2 ^ Z.max 0 e ∧ 0 < 2 ^ Z.max 0 (- e).
Proof. split; apply Z.pow_pos_nonneg; lia. Qed.

Lemma scaled_floor_alt n d e :
  scaled_floor n d e = (n * 2 ^ Z.max 0 (- e)) / (d * 2 ^ Z.max 0 e).
Proof.
  unfold scaled_floor. destruct (Z.leb_spec 0 e).
  - rewrite (Z.max_l 0 (- e)), (Z.max_r 0 e) by lia. by rewrite Z.mul_1_r.
  - rewrite (Z.max_r 0 (- e)), (Z.max_l 0 e) by lia. by rewrite Z.mul_1_r.
Qed.

Lemma scaled_round_alt n d e :
  scaled_round n d e
  = round_half_even (n * 2 ^ Z.max 0 (- e)) (d * 2 ^ Z.max 0 e).
Proof.
  unfold scaled_round. destruct (Z.leb_spec 0 e).
  - rewrite (Z.max_l 0 (- e)), (Z.max_r 0 e) by lia. by rewrite Z.mul_1_r.
  - rewrite (Z.max_r 0 (- e)), (Z.max_l 0 e) by lia. by rewrite Z.mul_1_r.
Qed.

Lemma up_down_shift e j :
  0 ≤ j → 0 ≤ j + e →
  2 ^ Z.max 0 e * 2 ^ j = 2 ^ Z.max 0 (- e) * 2 ^ (j + e).
Proof.
  intros Hj Hje. rewrite <- !Z.pow_add_r by lia. f_equal. lia.
Qed.

Lemma up_down_succ e :
  2 ^ Z.max 0 (e + 1) * 2 ^ Z.max 0 (- e)
  = 2 * (2 ^ Z.max 0 e * 2 ^ Z.max 0 (- (e + 1))).
Proof.
  rewrite <- !Z.pow_add_r by lia.
  rewrite <- (Z.pow_succ_r 2) by lia. f_equal. lia.
Qed.

(** A quotient lies in a window of integers when the cross products do. *)
Lemma div_window N M lo hi :
  0 < M → lo * M ≤ N < hi * M → lo ≤ N / M < hi.
Proof.
  intros HM [Hlo Hhi]. split.
  - apply Z.div_le_lower_bound; lia.
  - apply Z.div_lt_upper_bound; lia.
Qed.

Lemma div_window_inv N M lo :
  0 < M → lo ≤ N / M → lo * M ≤ N.
Proof.
  intros HM Hlo. pose proof (Z.mul_div_le N M HM). nia.
Qed.

Lemma div_window_lt N M hi :
  0 < M → N / M < hi → N < hi * M.
Proof.
  intros HM Hhi.
  pose proof (Z.div_mod N M ltac:(lia)). pose proof (Z.mod_pos_bound N M HM). nia.
Qed.

(** At the first guess of the exponent the significand has 53 or 54 bits. *)
Lemma first_guess_window n d :
  0 < n → 0 < d →
  2 ^ 52 ≤ scaled_floor n d (Z.log2 n - Z.log2 d - prec) < 2 ^ 54.
Proof.
  intros Hn Hd. unfold prec.
  destruct (Z.log2_spec n Hn) as [Hn1 Hn2]. destruct (Z.log2_spec d Hd) as [Hd1 Hd2].
  pose proof (Z.log2_nonneg n). pose proof (Z.log2_nonneg d).
  set (la := Z.log2 n) in *. set (lb := Z.log2 d) in *.
  set (e0 := la - lb - 53).
  destruct (up_down_pos e0) as [Hup Hdown].
  pose proof (up_down_shift e0 (lb + 53) ltac:(lia) ltac:(lia)) as Hshift.
  replace (lb + 53 + e0) with la in Hshift by lia.
  rewrite Z.pow_add_r in Hshift by lia.
  rewrite Z.pow_succ_r in Hn2, Hd2 by lia.
  rewrite scaled_floor_alt. apply div_window; [lia |].
  set (U := 2 ^ Z.max 0 e0) in *. set (W := 2 ^ Z.max 0 (- e0)) in *.
  set (A := 2 ^ la) in *. set (B := 2 ^ lb) in *.
  change (2 ^ 52) with 4503599627370496. change (2 ^ 54) with 18014398509481984.
  change (2 ^ 53) with 9007199254740992 in Hshift.
  split.
  - transitivity (W * A); [| nia].
    rewrite <- Hshift. nia.
  - apply Z.lt_le_trans with (2 * (W * A)); [nia |].
    rewrite <- Hshift. nia.
Qed.

(** Above the least exponent the significand chosen has exactly 53 bits
    before rounding; at the least exponent it has at most 53. *)
Lemma exponent_normalised n d :
  0 < n → 0 < d →
  let e := exponent n d in
  emin ≤ e ∧
  scaled_floor n d e < 2 ^ 53 ∧
  (emin < e → 2 ^ 52 ≤ scaled_floor n d e).
Proof.
  intros Hn Hd e. subst e. unfold exponent.
  pose proof (first_guess_window n d Hn Hd) as [Hlo Hhi].
  set (e0 := Z.log2 n - Z.log2 d - prec) in *.
  assert (He1 : let e1 := if scaled_floor n d e0 <? 2 ^ prec then e0 else e0 + 1 in
                2 ^ 52 ≤ scaled_floor n d e1 < 2 ^ 53).
  { unfold prec. destruct (Z.ltb_spec (scaled_floor n d e0) (2 ^ 53)) as [Hlt | Hge];
      [cbv zeta; lia |].
    cbv zeta. rewrite scaled_floor_alt in *.
    destruct (up_down_pos e0) as [Hup Hdown].
    destruct (up_down_pos (e0 + 1)) as [Hup' Hdown'].
    pose proof (up_down_succ e0) as Hsucc.
    apply div_window_inv in Hge; [| lia]. apply div_window_lt in Hhi; [| lia].
    apply div_window; [lia |].
    set (U := 2 ^ Z.max 0 e0) in *. set (W := 2 ^ Z.max 0 (- e0)) in *.
    set (U' := 2 ^ Z.max 0 (e0 + 1)) in *. set (W' := 2 ^ Z.max 0 (- (e0 + 1))) in *.
    change (2 ^ 52) with 4503599627370496 in *.
    change (2 ^ 53) with 9007199254740992 in *.
    change (2 ^ 54) with 18014398509481984 in *.
    split.
    - apply (Z.mul_le_mono_pos_r _ _ W); [lia |].
      replace (4503599627370496 * (d * U') * W)
        with (4503599627370496 * d * (U' * W)) by lia.
      rewrite Hsucc. nia.
    - apply (Z.mul_lt_mono_pos_r W); [lia |].
      replace (9007199254740992 * (d * U') * W)
        with (9007199254740992 * d * (U' * W)) by lia.
      rewrite Hsucc. nia. }
  cbv zeta in He1.
  set (e1 := if scaled_floor n d e0 <? 2 ^ prec then e0 else e0 + 1) in *.
  split; [lia |].
  destruct (Z.max_spec e1 emin) as [[Hlt ->] | [Hge ->]].
  - split; [| lia].
    (* a smaller exponent than the least is raised to it: the floor shrinks *)
    rewrite scaled_floor_alt in *. destruct He1 as [_ He1].
    destruct (up_down_pos e1) as [Hup Hdown].
    destruct (up_down_pos emin) as [Hup' Hdown'].
    apply div_window_lt in He1; [| lia].
    assert (0 ≤ (n * 2 ^ Z.max 0 (- emin)) / (d * 2 ^ Z.max 0 emin))
      by (apply Z.div_pos; lia).
    apply Z.div_lt_upper_bound; [lia |].
    assert (Hrel : 2 ^ Z.max 0 (- emin) * 2 ^ Z.max 0 e1 * 2 ^ (emin - e1)
                   = 2 ^ Z.max 0 emin * 2 ^ Z.max 0 (- e1)).
    { rewrite <- !Z.pow_add_r by lia. f_equal. lia. }
    assert (Hk : 1 ≤ 2 ^ (emin - e1)) by (apply (Z.pow_le_mono_r 2 0); lia).
    set (U := 2 ^ Z.max 0 e1) in *. set (W := 2 ^ Z.max 0 (- e1)) in *.
    set (U' := 2 ^ Z.max 0 emin) in *. set (W' := 2 ^ Z.max 0 (- emin)) in *.
    set (K := 2 ^ (emin - e1)) in *.
    change (2 ^ 53) with 9007199254740992 in *.
    assert (H1 : n * W * U' < 9007199254740992 * (d * U) * U')
      by (apply Z.mul_lt_mono_pos_r; lia).
    assert (H2 : 0 ≤ 9007199254740992 * (d * U) * U')
      by (repeat apply Z.mul_nonneg_nonneg; lia).
    assert (H3 : 9007199254740992 * (d * U) * U' * 1
                 ≤ 9007199254740992 * (d * U) * U' * K)
      by (apply Z.mul_le_mono_nonneg_l; lia).
    assert (H4 : 0 < U * K) by (apply Z.mul_pos_pos; lia).
    apply (Z.mul_lt_mono_pos_r (U * K)); [exact H4 |].
    replace (n * W' * (U * K)) with (n * (W' * U * K)) by lia.
    rewrite Hrel. lia.
  - split; [lia | intros _; lia].
Qed.

(** The binary64 quotient of two positive integers: in range, within
    half a unit in the last place of the exact quotient, and normalised
    above the least exponent. *)
Lemma div_pos_correctly_rounded n d m e :
  0 < n → 0 < d → div_pos n d = Returned (m, e) →
  emin ≤ e ≤ emax ∧
  0 ≤ m ≤ 2 ^ 53 ∧
  (emin < e → 2 ^ 52 ≤ m) ∧
  2 * Z.abs (n * 2 ^ Z.max 0 (- e) - m * (d * 2 ^ Z.max 0 e))
  ≤ d * 2 ^ Z.max 0 e.
Proof.
  intros Hn Hd. unfold div_pos.
  destruct (Z.eqb_spec n 0); [lia |].
  pose proof (exponent_normalised n d Hn Hd) as (Hmin & Hhi & Hlo).
  cbv zeta in Hmin, Hhi, Hlo.
  set (e' := exponent n d) in *.
  destruct (Z.ltb_spec emax e'); [done |].
  destruct (andb _ _) eqn:Hover; cbn [orb]; [done |].
  intros [= <- <-].
  destruct (up_down_pos e') as [Hup Hdown].
  rewrite scaled_round_alt. rewrite scaled_floor_alt in Hhi, Hlo.
  pose proof (round_half_even_bounds (n * 2 ^ Z.max 0 (- e')) (d * 2 ^ Z.max 0 e')).
  assert (0 ≤ (n * 2 ^ Z.max 0 (- e')) / (d * 2 ^ Z.max 0 e'))
    by (apply Z.div_pos; lia).
  change (2 ^ 53) with 9007199254740992 in *.
  split; [lia |]. split; [lia |]. split.
  - intros He. specialize (Hlo He). lia.
  - apply round_half_even_nearest. lia.
Qed.

(** The rounded significand of [D / 15] at scale [P = 2^k]: exact on a
    multiple of 15, strictly between the two neighbouring integers
    (scaled) otherwise, as long as the scale is at least 8. *)
Lemma significand_window D P :
  0 ≤ D → 0 < P → (8 ≤ P ∨ D mod 15 = 0) →
  let m := round_half_even (D * P) 15 in
  (D mod 15 = 0 → m = D / 15 * P) ∧
  (D mod 15 ≠ 0 → D / 15 * P < m ≤ (D / 15 + 1) * P).
Proof.
  intros HD HP Hscale m.
  pose proof (Z.div_mod D 15 ltac:(lia)) as Hdm.
  pose proof (Z.mod_pos_bound D 15 ltac:(lia)) as Hr.
  set (Q := D / 15) in *. set (r := D mod 15) in *.
  assert (Hn : D * P = (Q * P) * 15 + r * P) by lia.
  assert (Hq : (D * P) / 15 = Q * P + (r * P) / 15).
  { rewrite Hn, Z.div_add_l by lia. done. }
  assert (Hm : (D * P) mod 15 = (r * P) mod 15).
  { rewrite Hn, Z.add_comm, Z.mod_add by lia. done. }
  pose proof (Z.div_mod (r * P) 15 ltac:(lia)) as Ht.
  pose proof (Z.mod_pos_bound (r * P) 15 ltac:(lia)) as Ht'.
  pose proof (round_half_even_bounds (D * P) 15) as Hb. fold m in Hb.
  split.
  - intros Hr0. rewrite Hr0 in *.
    assert (m = (D * P) / 15) as ->.
    { apply round_half_even_below. rewrite Hm. simpl. lia. }
    rewrite Hq. simpl. lia.
  - intros Hr0. destruct Hscale as [HP8 | ?]; [| done].
    assert (0 ≤ (r * P) / 15 < P) as Hq1.
    { split; [apply Z.div_pos; nia |].
      apply Z.div_lt_upper_bound; nia. }
    split; [| lia].
    destruct (Z.eq_dec ((r * P) / 15) 0) as [Hz | Hnz]; [| lia].
    assert (m = (D * P) / 15 + 1) as ->.
    { apply round_half_even_above. rewrite Hm. nia. }
    lia.
Qed.

Lemma ceil_window m P Q :
  0 < P → Q * P < m ≤ (Q + 1) * P → - ((- m) / P) = Q + 1.
Proof.
  intros HP Hm.
  assert ((- m) / P = - (Q + 1)) as ->; [| lia].
  symmetry. apply (Z.div_unique_pos _ _ _ ((Q + 1) * P - m)); lia.
Qed.

Lemma ceil_exact P Q : 0 < P → - ((- (Q * P)) / P) = Q.
Proof.
  intros HP. replace (- (Q * P)) with ((- Q) * P) by lia.
  rewrite Z.div_mul by lia. lia.
Qed.

Lemma ceil_quotient D : 0 ≤ D →
  (D + 14) / 15 = if decide (D mod 15 = 0) then D / 15 else D / 15 + 1.
Proof.
  intros HD. case_decide; Z.div_mod_to_equations; lia.
Qed.

(** The exponent chosen for [D / 15] in the exact range. *)
Lemma exponent_range D :
  0 < D ≤ exact_limit →
  let e := exponent D 15 in
  -56 ≤ e ≤ -2 ∧ (e ≤ -3 ∨ D mod 15 = 0).
Proof.
  intros [HD0 HD] e. unfold exact_limit in HD.
  pose proof (Z.log2_nonneg D) as Hl0.
  assert (Hl : Z.log2 D < 54).
  { apply Z.log2_lt_pow2; [done |]. change (2 ^ 54) with 18014398509481984. lia. }
  subst e. unfold exponent, prec, emin.
  change (Z.log2 15) with 3.
  set (e0 := Z.log2 D - 3 - 53) in *.
  destruct (Z.ltb_spec (scaled_floor D 15 e0) (2 ^ 53)) as [Hlt | Hge].
  - assert (e0 ≤ -3) by lia. lia.
  - destruct (Z.eq_dec (Z.log2 D) 53) as [H53 | Hne53]; [| lia].
    subst e0. rewrite H53 in *.
    change (53 - 3 - 53) with (-3) in *.
    unfold scaled_floor in Hge.
    change (0 <=? -3) with false in Hge. cbv iota in Hge.
    change (2 ^ 53) with 9007199254740992 in Hge.
    change (2 ^ (- (-3))) with 8 in Hge.
    assert (D = 16888498602639360) as ->.
    { assert (9007199254740992 * 15 ≤ D * 8); [| lia].
      transitivity ((D * 8) / 15 * 15); [lia |].
      Z.div_mod_to_equations; lia. }
    split; [lia |]. right. reflexivity.
Qed.

End FloatFacts.

Lemma exact_limit_value : exact_limit = 15 * 2 ^ 50.
Proof. reflexivity. Qed.

(** In the exact range the float ceiling is the integer ceiling. *)
Lemma total_segments_exact D :
  0 ≤ D ≤ exact_limit → total_segments D = Returned ((D + 14) / 15).
Proof.
  intros [HD0 HD].
  destruct (Z.eq_dec D 0) as [-> | Hnz]; [reflexivity |].
  pose proof (FloatFacts.exponent_range D ltac:(lia)) as [He Hk].
  unfold total_segments, Float.truediv, SEGMENT_LENGTH.
  change (15 =? 0) with false. cbv iota.
  rewrite (Z.abs_eq D) by lia. change (Z.abs 15) with 15.
  unfold Float.div_pos.
  destruct (Z.eqb_spec D 0) as [? | _]; [lia |].
  set (e := Float.exponent D 15) in *.
  unfold Float.emax, Float.prec.
  destruct (Z.ltb_spec 971 e) as [? | _]; [lia |].
  destruct (Z.eqb_spec e 971) as [? | _]; [lia |].
  simpl orb. cbv iota.
  unfold mbind, outcome_bind, mret, outcome_ret. f_equal.
  rewrite (Z.sgn_pos D) by lia. change (Z.sgn 15) with 1.
  rewrite !Z.mul_1_l.
  unfold Float.ceil, Float.scaled_round.
  destruct (Z.leb_spec 0 e) as [? | _]; [lia |].
  assert (HP : 0 < 2 ^ (- e)) by (apply Z.pow_pos_nonneg; lia).
  assert (Hscale : 8 ≤ 2 ^ (- e) ∨ D mod 15 = 0).
  { destruct Hk as [Hk | Hk]; [left | by right].
    change 8 with (2 ^ 3). apply Z.pow_le_mono_r; lia. }
  destruct (FloatFacts.significand_window D (2 ^ (- e)) HD0 HP Hscale) as [Hz Hn].
  rewrite FloatFacts.ceil_quotient by done.
  case_decide as Hr.
  - rewrite (Hz Hr). by apply FloatFacts.ceil_exact.
  - by apply FloatFacts.ceil_window; [| apply Hn].
Qed.

(** ** The spans of the segmenter *)

Section Spans.
Variable D : Z.

Lemma spans_upto_lookup n i sp :
  spans_upto D n !! i = Some sp ↔
  sp = segment_bounds D (Z.of_nat i) ∧ Z.of_nat i < n.
Proof.
  unfold spans_upto. change (map ?f ?l) with (f <$> l).
  rewrite list_lookup_fmap, fmap_Some. setoid_rewrite lookup_seqZ.
  split.
  - intros (j & [-> ?] & ->). by rewrite Z.add_0_l.
  - intros [-> ?]. exists (Z.of_nat i). by rewrite Z.add_0_l.
Qed.

Lemma spans_upto_length n : length (spans_upto D n) = Z.to_nat n.
Proof. unfold spans_upto. by rewrite length_map, length_seqZ. Qed.

Lemma spans_upto_last n :
  0 < n → last (spans_upto D n) = Some (segment_bounds D (n - 1)).
Proof.
  intros Hn. rewrite last_lookup, spans_upto_length.
  apply spans_upto_lookup. split; [f_equal |]; lia.
Qed.

Lemma foldr_add_shift (l : list Z) a :
  foldr Z.add a l = foldr Z.add 0 l + a.
Proof.
  revert a. induction l as [|y l IH]; intros a; simpl; [lia |].
  rewrite IH. lia.
Qed.

Lemma spans_upto_sum (k : nat) :
  0 ≤ D → 15 * (Z.of_nat k - 1) ≤ D →
  sum_lengths (spans_upto D (Z.of_nat k)) = Z.min (15 * Z.of_nat k) D.
Proof.
  intros HD. unfold sum_lengths, spans_upto.
  induction k as [|k IH]; intros Hk; [simpl; lia |].
  rewrite seqZ_S, map_app, fmap_app, foldr_app, foldr_add_shift, IH by lia.
  cbn [map fmap list_fmap foldr].
  unfold span_length, segment_bounds, SEGMENT_LENGTH. cbn [fst snd]. lia.
Qed.

End Spans.

(** The spans cut with the exact number of segments partition [[0, D)]. *)
Lemma exact_spans_partition D :
  0 ≤ D →
  contiguous_partition SEGMENT_LENGTH D (spans_upto D ((D + 14) / 15)).
Proof.
  intros HD. set (n := (D + 14) / 15).
  assert (Hn : 15 * (n - 1) < D + 0 ≤ 15 * n).
  { subst n. Z.div_mod_to_equations. lia. }
  unfold SEGMENT_LENGTH. split.
  - intros sp [-> _]%spans_upto_lookup. reflexivity.
  - intros i sp sp' [-> _]%spans_upto_lookup [-> Hi]%spans_upto_lookup.
    unfold segment_bounds, SEGMENT_LENGTH. simpl. lia.
  - intros sp Hlast.
    destruct (Z.eq_dec n 0) as [Hz | Hnz].
    { rewrite Hz in Hlast. done. }
    rewrite spans_upto_last in Hlast by lia. injection Hlast as <-.
    unfold segment_bounds, SEGMENT_LENGTH. simpl. lia.
  - intros i sp [-> _]%spans_upto_lookup Hi.
    rewrite spans_upto_length in Hi.
    unfold span_length, segment_bounds, SEGMENT_LENGTH. simpl. lia.
  - intros sp Hlast.
    destruct (Z.eq_dec n 0) as [Hz | Hnz].
    { rewrite Hz in Hlast. done. }
    rewrite spans_upto_last in Hlast by lia. injection Hlast as <-.
    unfold span_length, segment_bounds, SEGMENT_LENGTH. simpl. lia.
  - rewrite <- (Z2Nat.id n) by lia. rewrite spans_upto_sum by lia. lia.
  - rewrite <- length_zero_iff_nil, spans_upto_length. lia.
Qed.

Lemma time_spans_total D n :
  total_segments D = Returned n →
  time_spans D = Returned (spans_upto D n).
Proof.
  intros H. unfold time_spans. rewrite H.
  unfold mbind, outcome_bind, mret, outcome_ret.
  by rewrite for_append_map.
Qed.

Lemma generate_time_segments_total D n :
  total_segments D = Returned n →
  generate_time_segments D =
  Returned (map make_segment (spans_upto D n)).
Proof.
  intros H. unfold generate_time_segments. rewrite H.
  unfold mbind, outcome_bind, mret, outcome_ret.
  unfold spans_upto. by rewrite for_append_map, map_map.
Qed.

(** C1 (as amended): for every integer duration [D] with
    [0 <= D <= 15 * 2^50] and the segment length 15, the segmenter returns
    the segments of a contiguous, non-overlapping partition of [[0, D)]:
    the first span starts at 0, each span ends where the next starts, the
    last ends at [D], every span but the last has length 15 and the last
    one is not empty and not longer, the lengths add up to [D], and the
    sequence is empty exactly when [D = 0]. *)
Theorem generate_time_segments_partition D :
  0 ≤ D ≤ exact_limit →
  ∃ spans,
    time_spans D = Returned spans ∧
    generate_time_segments D = Returned (map make_segment spans) ∧
    contiguous_partition SEGMENT_LENGTH D spans.
Proof.
  intros HD. pose proof (total_segments_exact D HD) as Htotal.
  exists (spans_upto D ((D + 14) / 15)).
  split; [by apply time_spans_total |].
  split; [by apply generate_time_segments_total |].
  apply exact_spans_partition. lia.
Qed.

Lemma generate_time_segments_partition_witness :
  0 ≤ 259 ≤ exact_limit ∧
  ∃ spans,
    time_spans 259 = Returned spans ∧
    generate_time_segments 259 = Returned (map make_segment spans) ∧
    contiguous_partition SEGMENT_LENGTH 259 spans.
Proof.
  split; [unfold exact_limit; lia |].
  apply (generate_time_segments_partition 259). unfold exact_limit. lia.
Defined.

(** C1 (as stated) fails at the duration [15 * 2^50 + 1]: the float
    quotient rounds down to [2^50], so the segmenter cuts [2^50] segments
    and the last one ends at [15 * 2^50], one second short of the
    duration: its end label is that of [15 * 2^50], not that of the
    duration. *)
Lemma generate_time_segments_partition_fails :
  total_segments 16888498602639361 = Returned 1125899906842624 ∧
  (¬ ∃ spans,
       time_spans 16888498602639361 = Returned spans ∧
       contiguous_partition SEGMENT_LENGTH 16888498602639361 spans) ∧
  (∃ segments,
      generate_time_segments 16888498602639361 = Returned segments ∧
      (seg_End_Time <$> last segments) = Some "4691249611844:16:00" ∧
      format_time 16888498602639361 = "4691249611844:16:01").
Proof.
  assert (Htotal : total_segments 16888498602639361 = Returned 1125899906842624)
    by (vm_compute; reflexivity).
  assert (Hpos : 0 < 1125899906842624) by lia.
  pose proof (spans_upto_last 16888498602639361 1125899906842624 Hpos) as Hlast.
  split; [exact Htotal |]. split.
  - intros (spans & Hspans & Hpart).
    rewrite (time_spans_total _ _ Htotal) in Hspans.
    apply Returned_inj in Hspans. subst spans.
    pose proof (cp_last _ _ _ Hpart _ Hlast) as Hend.
    unfold segment_bounds, SEGMENT_LENGTH in Hend. cbn [snd] in Hend. lia.
  - exists (map make_segment (spans_upto 16888498602639361 1125899906842624)).
    split; [by apply generate_time_segments_total |].
    rewrite last_map, Hlast. split; vm_compute; reflexivity.
Qed.


(** ** The script monad *)

Lemma session_key_role_inj video role role' :
  session_key video role = session_key video role' → role = role'.
Proof.
  unfold session_key. intros H.
  by do 3 apply (inj (String.app _)) in H.
Qed.

(** On the catalogue the keys of the four (video, role) pairs differ. *)
Lemma session_key_catalogue :
  NoDup (video_roles ← VIDEO_DATA;
         session_key video_roles.1 <$> roles video_roles.2).
Proof.
  vm_compute. repeat (apply NoDup_cons_2; [| ]);
    [.. | apply NoDup_nil_2];
    intros H; repeat (apply elem_of_cons in H as [H | H]; [discriminate H |]);
    by apply elem_of_nil in H.
Qed.

Lemma initial_data_rows role segments :
  initial_data role segments = map (initial_row role) segments.
Proof. apply for_append_map. Qed.

Lemma export_store inp df st : (export inp df st).2 = st.
Proof.
  unfold export, lift, mbind, script_bind, mret, script_ret.
  by destruct (convert_df_to_excel df).
Qed.

Lemma main_store inp st : (main inp st).2 = (annotate inp st).2.
Proof.
  unfold main, mbind, script_bind.
  destruct (annotate inp st) as [[df | e] st']; [apply export_store | done].
Qed.

(** What [annotate] leaves in the session state: nothing new when the
    catalogue lookup or the segmenter raises, and otherwise the edited
    table under the key of the selection. *)
Lemma annotate_spec inp st :
  let key := session_key (selected_video inp) (selected_role inp) in
  match dict_get VIDEO_DATA (selected_video inp) with
  | Raised e => annotate inp st = (Raised e, st)
  | Returned video_info =>
      match generate_time_segments (duration_sec video_info) with
      | Raised e => annotate inp st = (Raised e, st)
      | Returned segments =>
          let current :=
            default (pd_DataFrame (initial_data (selected_role inp) segments))
                    (st !! key) in
          annotate inp st =
          (Returned (data_editor inp current),
           <[key := data_editor inp current]> st)
      end
  end.
Proof.
  intros key. unfold annotate, lift, mbind, script_bind.
  destruct (dict_get VIDEO_DATA (selected_video inp)) as [video_info | e]; [| done].
  destruct (generate_time_segments (duration_sec video_info)) as [segments | e];
    [| done].
  fold key. unfold init_session_state, session_get, session_set, mret, script_ret.
  destruct (st !! key) as [df |] eqn:Hkey; simpl.
  - by rewrite Hkey.
  - by rewrite lookup_insert_eq, insert_insert_eq.
Qed.

Lemma annotate_frame inp st key' :
  key' ≠ session_key (selected_video inp) (selected_role inp) →
  (annotate inp st).2 !! key' = st !! key'.
Proof.
  intros Hne. pose proof (annotate_spec inp st) as H. cbv zeta in H.
  destruct (dict_get VIDEO_DATA (selected_video inp)) as [video_info | e];
    [| by rewrite H].
  destruct (generate_time_segments (duration_sec video_info)) as [segments | e];
    rewrite H; [| done].
  cbn [snd]. by rewrite lookup_insert_ne.
Qed.

(** ** The session store *)

Lemma init_existing_unchanged key role segments (st : session_state) table :
  st !! key = Some table →
  init_session_state key role segments st = (Returned tt, st).
Proof. intros Hkey. unfold init_session_state. by rewrite Hkey. Qed.

(** C3: table creation is idempotent per session key: when a table is
    already stored under the key, a further access leaves the session
    state as it is and reads that table, whatever role and segments the
    access comes with. *)
Theorem init_session_state_existing key role segments st table :
  st !! key = Some table →
  init_session_state key role segments st = (Returned tt, st) ∧
  session_get key (init_session_state key role segments st).2
  = (Returned table, st).
Proof.
  intros Hkey. rewrite (init_existing_unchanged _ _ _ _ _ Hkey).
  unfold session_get. cbn [snd]. by rewrite Hkey.
Qed.

Lemma init_session_state_existing_witness :
  let table := pd_DataFrame (initial_data "Nicole"
                               (map make_segment (spans_upto 259 18))) in
  Runs.first_visit !! Runs.nicole_key = Some table ∧
  init_session_state Runs.nicole_key "Charlie" [] Runs.first_visit
  = (Returned tt, Runs.first_visit) ∧
  session_get Runs.nicole_key
    (init_session_state Runs.nicole_key "Charlie" [] Runs.first_visit).2
  = (Returned table, Runs.first_visit).
Proof.
  intros table.
  assert (H : Runs.first_visit !! Runs.nicole_key = Some table)
    by (vm_compute; reflexivity).
  split; [exact H |].
  exact (init_session_state_existing Runs.nicole_key "Charlie" []
           Runs.first_visit table H).
Defined.

(** C4: for a key that is not in the store, the first access stores a
    table with one row per segment, in segment order; each row has the
    start and end labels of its segment, the role given at creation, the
    pending label and empty notes. *)
Theorem init_session_state_fresh key role segments st :
  st !! key = None →
  ∃ table,
    (init_session_state key role segments st).2 !! key = Some table ∧
    length table = length segments ∧
    ∀ i seg, segments !! i = Some seg →
      table !! i = Some {| Start_Time := seg_Start_Time seg;
                           End_Time := seg_End_Time seg;
                           Role := role;
                           Emotion_Label := PENDING;
                           Notes := EmptyString |}.
Proof.
  intros Hkey. exists (map (initial_row role) segments).
  unfold init_session_state, session_set, pd_DataFrame. rewrite Hkey.
  cbn [snd]. rewrite lookup_insert_eq, initial_data_rows, length_map.
  repeat split. intros i seg Hseg.
  change (map ?f ?l) with (f <$> l).
  by rewrite list_lookup_fmap, Hseg.
Qed.

Lemma init_session_state_fresh_witness :
  (∅ : session_state) !! Runs.nicole_key = None ∧
  ∃ table,
    (init_session_state Runs.nicole_key "Nicole"
       (map make_segment (spans_upto 259 18)) ∅).2 !! Runs.nicole_key
    = Some table ∧
    length table = length (map make_segment (spans_upto 259 18)) ∧
    ∀ i seg, map make_segment (spans_upto 259 18) !! i = Some seg →
      table !! i = Some {| Start_Time := seg_Start_Time seg;
                           End_Time := seg_End_Time seg;
                           Role := "Nicole";
                           Emotion_Label := PENDING;
                           Notes := EmptyString |}.
Proof.
  split; [reflexivity |].
  apply (init_session_state_fresh Runs.nicole_key "Nicole"
           (map make_segment (spans_upto 259 18)) ∅).
  reflexivity.
Defined.

(** C2 (as stated) fails: on the store left by the first visit, which
    holds 18 rows under the key, an edited table of 17 rows is committed
    without an exception and replaces the stored table, and so is a table
    whose labels are all outside [EMOTIONS]. *)
Lemma commit_unchecked :
  let shorter := main (Runs.nicole Runs.drop_last) Runs.first_visit in
  let foreign := main (Runs.nicole (map (Runs.relabel "Happy"))) Runs.first_visit in
  (length <$> Runs.first_visit !! Runs.nicole_key) = Some 18%nat ∧
  Runs.returned shorter = true ∧
  (length <$> shorter.2 !! Runs.nicole_key) = Some 17%nat ∧
  shorter.2 !! Runs.nicole_key ≠ Runs.first_visit !! Runs.nicole_key ∧
  Runs.returned foreign = true ∧
  existsb (String.eqb "Happy") EMOTIONS = false ∧
  (map Emotion_Label <$> foreign.2 !! Runs.nicole_key)
  = Some (repeat "Happy" 18) ∧
  foreign.2 !! Runs.nicole_key ≠ Runs.first_visit !! Runs.nicole_key.
Proof.
  intros shorter foreign.
  assert (H17 : (length <$> shorter.2 !! Runs.nicole_key) = Some 17%nat)
    by (vm_compute; reflexivity).
  assert (H18 : (length <$> Runs.first_visit !! Runs.nicole_key) = Some 18%nat)
    by (vm_compute; reflexivity).
  assert (Hf : (map Emotion_Label <$> foreign.2 !! Runs.nicole_key)
               = Some (repeat "Happy" 18)) by (vm_compute; reflexivity).
  assert (Hp : (map Emotion_Label <$> Runs.first_visit !! Runs.nicole_key)
               = Some (repeat PENDING 18)) by (vm_compute; reflexivity).
  repeat split; try (vm_compute; reflexivity); try assumption.
  - intros Heq. apply (f_equal (fmap length)) in Heq.
    rewrite H17, H18 in Heq. discriminate Heq.
  - intros Heq. apply (f_equal (fmap (map Emotion_Label))) in Heq.
    rewrite Hf, Hp in Heq. discriminate Heq.
Qed.

(** C2 (as amended): committing an edited table never fails and is not
    checked: whatever its row count and labels, the edited table
    replaces the table stored under the key, and it is what a run that
    reaches the commit leaves under the key of its selection. *)
Theorem commit_replaces_table :
  (∀ key edited (st : session_state),
      session_set key edited st = (Returned tt, <[key := edited]> st) ∧
      session_get key (<[key := edited]> st)
      = (Returned edited, <[key := edited]> st)) ∧
  (∀ inp st edited,
      (annotate inp st).1 = Returned edited →
      (main inp st).2 !! session_key (selected_video inp) (selected_role inp)
      = Some edited).
Proof.
  split.
  - intros key edited st. unfold session_set, session_get.
    by rewrite lookup_insert_eq.
  - intros inp st edited. rewrite main_store.
    pose proof (annotate_spec inp st) as H. cbv zeta in H.
    destruct (dict_get VIDEO_DATA (selected_video inp)) as [video_info | e];
      [| by rewrite H].
    destruct (generate_time_segments (duration_sec video_info)) as [segments | e];
      rewrite H; [| done].
    cbn [fst snd]. intros [= <-]. by rewrite lookup_insert_eq.
Qed.

Lemma commit_replaces_table_witness :
  let edited := Runs.drop_last (pd_DataFrame (initial_data "Nicole"
                              (map make_segment (spans_upto 259 18)))) in
  (annotate (Runs.nicole Runs.drop_last) Runs.first_visit).1 = Returned edited ∧
  (main (Runs.nicole Runs.drop_last) Runs.first_visit).2 !! Runs.nicole_key
  = Some edited.
Proof.
  intros edited.
  assert (H : (annotate (Runs.nicole Runs.drop_last) Runs.first_visit).1
              = Returned edited) by (vm_compute; reflexivity).
  split; [exact H |].
  exact (proj2 commit_replaces_table (Runs.nicole Runs.drop_last)
           Runs.first_visit edited H).
Defined.

(** C7: for every video and two distinct roles of it, the two session
    keys differ and their tables are independent: a run of the script
    for one role, commit included, leaves the table stored for the other
    role as it was. *)
Theorem roles_independent inp other_role st :
  other_role ≠ selected_role inp →
  session_key (selected_video inp) other_role
  ≠ session_key (selected_video inp) (selected_role inp) ∧
  (main inp st).2 !! session_key (selected_video inp) other_role
  = st !! session_key (selected_video inp) other_role ∧
  ∀ edited,
    (session_set (session_key (selected_video inp) (selected_role inp))
                 edited st).2 !! session_key (selected_video inp) other_role
    = st !! session_key (selected_video inp) other_role.
Proof.
  intros Hne.
  assert (Hkey : session_key (selected_video inp) other_role
                 ≠ session_key (selected_video inp) (selected_role inp)).
  { intros H. by apply Hne, (session_key_role_inj (selected_video inp)). }
  split; [done |]. split.
  - rewrite main_store. by apply annotate_frame.
  - intros edited. unfold session_set. cbn [snd]. by rewrite lookup_insert_ne.
Qed.

Lemma roles_independent_witness :
  "Charlie" ≠ "Nicole" ∧
  session_key "Marriage Story" "Charlie" ≠ session_key "Marriage Story" "Nicole" ∧
  (main (Runs.nicole Runs.drop_last) Runs.first_visit).2
    !! session_key "Marriage Story" "Charlie"
  = Runs.first_visit !! session_key "Marriage Story" "Charlie" ∧
  ∀ edited,
    (session_set (session_key "Marriage Story" "Nicole") edited
                 Runs.first_visit).2 !! session_key "Marriage Story" "Charlie"
    = Runs.first_visit !! session_key "Marriage Story" "Charlie".
Proof.
  assert (H : "Charlie" ≠ "Nicole") by discriminate.
  split; [exact H |].
  exact (roles_independent (Runs.nicole Runs.drop_last) "Charlie" Runs.first_visit H).
Defined.

(** ** The pending count *)

Lemma pending_count_rows df : pending_count df = Z.of_nat (rows_pending df).
Proof.
  unfold pending_count. f_equal.
  induction df as [|row df IH]; [done |].
  rewrite filter_cons. cbn [rows_pending].
  destruct (String.eqb_spec (Emotion_Label row) PENDING) as [Heq | Hne].
  - rewrite decide_True by done. cbn [length]. by rewrite IH.
  - by rewrite decide_False.
Qed.

Lemma rows_pending_initial role segments :
  rows_pending (map (initial_row role) segments) = length segments.
Proof. induction segments as [|seg segments IH]; [done |]. simpl. by rewrite IH. Qed.

Lemma rows_pending_none df :
  Forall (λ row, Emotion_Label row ≠ PENDING) df → rows_pending df = 0%nat.
Proof.
  induction 1 as [|row df Hrow _ IH]; [done |]. cbn [rows_pending].
  by destruct (String.eqb_spec (Emotion_Label row) PENDING).
Qed.

Lemma pending_count_nonneg df : 0 ≤ pending_count df.
Proof. unfold pending_count. lia. Qed.

(** ** The exporter *)

(** C8 (as stated) fails: the export of the empty table does not raise. *)
Lemma export_empty_returns : ¬ ∃ e, convert_df_to_excel [] = Raised e.
Proof. intros [e He]. vm_compute in He. discriminate He. Qed.

(** C8 (as amended): the export has no check for an empty table:
    exporting a table of zero rows returns a workbook with one sheet and
    no data row; and the export, whether it returns or raises, leaves the
    session state as the commit left it. *)
Theorem export_empty_table :
  (∃ sheet,
      convert_df_to_excel [] = Returned [sheet] ∧
      sheet_name sheet = "Sheet1" ∧ data_rows sheet = []) ∧
  (∀ inp df st, (export inp df st).2 = st) ∧
  (∀ inp st, (main inp st).2 = (annotate inp st).2).
Proof.
  split; [| split; [apply export_store | apply main_store]].
  by eexists; split; [vm_compute; reflexivity |].
Qed.

(** An export that does raise: a control character in a note is refused
    by the writer; the commit made before it stays in the session state. *)
Example export_raises_after_commit :
  let r := main (Runs.nicole (map Runs.control_note)) Runs.first_visit in
  Runs.returned r = false ∧
  r.2 !! Runs.nicole_key
  = (map Runs.control_note <$> Runs.first_visit !! Runs.nicole_key).
Proof. split; vm_compute; reflexivity. Qed.

(** What the writer keeps of a table it accepts: every cell cut to the
    length cap. *)
Lemma write_cells_returned cells cells' :
  write_cells cells = Returned cells' →
  cells' = map (take_characters CELL_LIMIT) cells.
Proof.
  revert cells'. induction cells as [|c cells IH]; intros cells'; cbn [write_cells].
  - by intros [= <-].
  - unfold check_string. cbv zeta.
    destruct (existsb illegal_character _); [done |].
    unfold mbind, outcome_bind, mret, outcome_ret.
    destruct (write_cells cells) as [rest |]; [| done].
    intros [= <-]. cbn [map]. by rewrite (IH rest).
Qed.

Lemma write_rows_returned rows rows' :
  write_rows rows = Returned rows' →
  rows' = map (map (take_characters CELL_LIMIT)) rows.
Proof.
  revert rows'. induction rows as [|r rows IH]; intros rows'; cbn [write_rows].
  - by intros [= <-].
  - unfold mbind, outcome_bind, mret, outcome_ret.
    destruct (write_cells r) as [r' |] eqn:Hr; [| done].
    destruct (write_rows rows) as [rest |]; [| done].
    intros [= <-]. cbn [map].
    by rewrite (write_cells_returned _ _ Hr), (IH rest).
Qed.

Lemma convert_df_to_excel_returned df workbook :
  convert_df_to_excel df = Returned workbook →
  workbook = [{| sheet_name := "Sheet1";
                 header_row := COLUMNS;
                 data_rows := map (map (take_characters CELL_LIMIT))
                                  (map row_cells df) |}].
Proof.
  unfold convert_df_to_excel, to_excel, mbind, outcome_bind, mret, outcome_ret.
  destruct (write_cells COLUMNS) as [header |] eqn:Hh; [| done].
  destruct (write_rows (map row_cells df)) as [body |] eqn:Hb; [| done].
  intros [= <-].
  rewrite (write_cells_returned _ _ Hh), (write_rows_returned _ _ Hb).
  reflexivity.
Qed.

(** ** The session key *)

(** C10: the session key is the concatenation
    ["data_" + video + "_" + role] and is not injective: the distinct
    pairs [("a_b", "c")] and [("a", "b_c")] have the same key, and so
    share one stored table: after the first pair created its table, the
    access for the second pair creates nothing and finds the table of the
    first, with the first pair's role in it. *)
Theorem session_key_not_injective :
  (∀ video role, session_key video role = "data_" +:+ video +:+ "_" +:+ role) ∧
  ("a_b", "c") ≠ ("a", "b_c") ∧
  session_key "a_b" "c" = session_key "a" "b_c" ∧
  ¬ (∀ video role video' role',
        session_key video role = session_key video' role' →
        (video, role) = (video', role')) ∧
  (∀ segments segments',
      let st := (init_session_state (session_key "a_b" "c") "c" segments ∅).2 in
      init_session_state (session_key "a" "b_c") "b_c" segments' st
      = (Returned tt, st) ∧
      session_get (session_key "a" "b_c") st
      = (Returned (pd_DataFrame (initial_data "c" segments)), st)).
Proof.
  split; [done |]. split; [discriminate |]. split; [reflexivity |]. split.
  - intros H. by specialize (H "a_b" "c" "a" "b_c" eq_refl).
  - intros segments segments' st.
    assert (Hst : st !! session_key "a" "b_c"
                  = Some (pd_DataFrame (initial_data "c" segments))).
    { subst st. unfold init_session_state, session_set.
      rewrite lookup_empty. cbn [snd].
      change (session_key "a" "b_c") with (session_key "a_b" "c").
      apply lookup_insert_eq. }
    split.
    + by apply (init_existing_unchanged _ _ _ _ _ Hst).
    + unfold session_get. by rewrite Hst.
Qed.


(** * Further properties of the script *)

(** ** Strings *)

Lemma string_app_length (a b : string) :
  String.length (a +:+ b) = (String.length a + String.length b)%nat.
Proof. induction a as [|c a IH]; [done |]. simpl. by rewrite IH. Qed.

Lemma string_app_inj_length (a a' b b' : string) :
  String.length a = String.length a' →
  a +:+ b = a' +:+ b' → a = a' ∧ b = b'.
Proof.
  revert a'. induction a as [|c a IH]; intros [|c' a'] Hlen Heq;
    try discriminate Hlen.
  - done.
  - simpl in Heq. injection Heq as -> Heq. injection Hlen as Hlen.
    destruct (IH a' Hlen Heq) as [-> ->]. done.
Qed.

Lemma string_app_inj_r (a a' b : string) : a +:+ b = a' +:+ b → a = a'.
Proof.
  intros Heq. apply (string_app_inj_length a a' b b); [| done].
  apply (f_equal String.length) in Heq. rewrite !string_app_length in Heq. lia.
Qed.

(** ** Decimal fields *)

Lemma to_uint_nonnil (n : N) : N.to_uint n ≠ Decimal.Nil.
Proof.
  destruct n as [|p]; [discriminate |]. apply DecimalPos.Unsigned.to_uint_nonnil.
Qed.

Lemma digits_of_N (n : N) :
  NilZero.string_of_uint (N.to_uint n) = NilEmpty.string_of_uint (N.to_uint n).
Proof.
  pose proof (to_uint_nonnil n) as H. by destruct (N.to_uint n).
Qed.

Lemma parse_digits_of_N (n : N) :
  parse_digits (NilEmpty.string_of_uint (N.to_uint n)) = Some (Z.of_N n).
Proof.
  unfold parse_digits. rewrite NilEmpty.usu. cbn [fmap option_fmap option_map].
  by rewrite DecimalN.Unsigned.of_to.
Qed.

Lemma parse_digits_zero (s : string) :
  parse_digits (String "0" s) = parse_digits s.
Proof.
  unfold parse_digits. cbn [NilEmpty.uint_of_string].
  by destruct (NilEmpty.uint_of_string s).
Qed.

(** A field written by [format_02] reads back as the number formatted. *)
Lemma parse_format_02 (x : Z) : 0 ≤ x → parse_digits (format_02 x) = Some x.
Proof.
  intros Hx. unfold format_02.
  destruct (Z.ltb_spec x 0) as [? | _]; [lia |].
  rewrite digits_of_N.
  assert (Hd : parse_digits (NilEmpty.string_of_uint (N.to_uint (Z.to_N (Z.abs x))))
               = Some x).
  { rewrite parse_digits_of_N. f_equal. lia. }
  destruct (_ <? 2)%nat; [| done].
  change ("0" +:+ ?s) with (String "0" s). by rewrite parse_digits_zero.
Qed.

Lemma format_02_inj (x y : Z) : 0 ≤ x → 0 ≤ y → format_02 x = format_02 y → x = y.
Proof.
  intros Hx Hy Heq. apply (f_equal parse_digits) in Heq.
  rewrite !parse_format_02 in Heq by done. by injection Heq.
Qed.

Lemma format_02_length_small (x : Z) :
  0 ≤ x < 100 → String.length (format_02 x) = 2%nat.
Proof.
  intros Hx.
  assert (Hall : forallb (fun x => Nat.eqb (String.length (format_02 x)) 2)
                         (seqZ 0 100) = true) by (vm_compute; reflexivity).
  rewrite forallb_forall in Hall.
  apply Nat.eqb_eq, Hall, list_elem_of_In, elem_of_seqZ. lia.
Qed.

Lemma no_digits_nil (d : Decimal.uint) :
  String.length (NilEmpty.string_of_uint d) = 0%nat → d = Decimal.Nil.
Proof. by destruct d. Qed.

Lemma short_digits_small (d : Decimal.uint) :
  (String.length (NilEmpty.string_of_uint d) ≤ 2)%nat → (N.of_uint d < 100)%N.
Proof.
  intros H.
  destruct d as [|d|d|d|d|d|d|d|d|d|d]; [reflexivity | ..];
    (destruct d as [|d|d|d|d|d|d|d|d|d|d]; [reflexivity | ..]);
    cbn [NilEmpty.string_of_uint String.length] in H;
    rewrite (no_digits_nil d) by lia; reflexivity.
Qed.

Lemma format_02_length_large (x : Z) :
  100 ≤ x → (3 ≤ String.length (format_02 x))%nat.
Proof.
  intros Hx. unfold format_02.
  destruct (Z.ltb_spec x 0) as [? | _]; [lia |].
  rewrite digits_of_N.
  set (d := N.to_uint (Z.to_N (Z.abs x))).
  assert (Hlen : (3 ≤ String.length (NilEmpty.string_of_uint d))%nat).
  { destruct (Nat.le_gt_cases (String.length (NilEmpty.string_of_uint d)) 2)
      as [Hle | ?]; [| lia].
    apply short_digits_small in Hle. subst d.
    rewrite DecimalN.Unsigned.of_to in Hle. lia. }
  destruct (Nat.ltb_spec (String.length (NilEmpty.string_of_uint d)) 2); [lia | done].
Qed.

(** ** Time labels *)

Lemma format_time_fields (s : Z) :
  0 ≤ s →
  0 ≤ s / 3600 ∧ 0 ≤ (s mod 3600) / 60 < 100 ∧ 0 ≤ s mod 60 < 100.
Proof. intros Hs. Z.div_mod_to_equations. lia. Qed.

(** Two equal labels have equal hour, minute and second fields. *)
Lemma format_time_same_fields (s s' : Z) :
  0 ≤ s → 0 ≤ s' → format_time s = format_time s' →
  s / 3600 = s' / 3600 ∧
  (s mod 3600) / 60 = (s' mod 3600) / 60 ∧
  s mod 60 = s' mod 60.
Proof.
  intros Hs Hs' Heq. unfold format_time in Heq.
  destruct (format_time_fields s Hs) as (Hh & Hm & Hsec).
  destruct (format_time_fields s' Hs') as (Hh' & Hm' & Hsec').
  pose proof (format_02_length_small _ Hm) as Lm.
  pose proof (format_02_length_small _ Hm') as Lm'.
  pose proof (format_02_length_small _ Hsec) as Ls.
  pose proof (format_02_length_small _ Hsec') as Ls'.
  assert (Hlen : String.length (format_02 (s / 3600))
                 = String.length (format_02 (s' / 3600))).
  { apply (f_equal String.length) in Heq.
    rewrite !string_app_length, Lm, Lm', Ls, Ls' in Heq. lia. }
  apply string_app_inj_length in Heq as [Hhours Heq]; [| done].
  apply (inj (String.app ":")) in Heq.
  apply string_app_inj_length in Heq as [Hmin Heq]; [| lia].
  apply (inj (String.app ":")) in Heq.
  apply format_02_inj in Hhours, Hmin, Heq; try lia.
Qed.

(** X1: a label of [format_time] determines the number of seconds it was
    made from: two non-negative second counts with the same label are
    equal, also beyond 100 hours, where the hours field takes more than
    two digits. *)
Theorem format_time_inj (s s' : Z) :
  0 ≤ s → 0 ≤ s' → format_time s = format_time s' → s = s'.
Proof.
  intros Hs Hs' Heq.
  destruct (format_time_same_fields s s' Hs Hs' Heq) as (Hh & Hm & Hsec).
  clear Heq. Z.div_mod_to_equations. lia.
Qed.

Lemma format_time_inj_witness :
  0 ≤ 255 ∧ 0 ≤ 17 * 15 ∧ format_time 255 = format_time (17 * 15) ∧
  255 = 17 * 15.
Proof.
  assert (H : 0 ≤ 255) by lia.
  assert (H' : 0 ≤ 17 * 15) by lia.
  assert (Heq : format_time 255 = format_time (17 * 15)) by reflexivity.
  split; [exact H |]. split; [exact H' |]. split; [exact Heq |].
  exact (format_time_inj 255 (17 * 15) H H' Heq).
Defined.

(** X2: a label has the eight characters of HH:MM:SS, with the colons
    in the third and sixth place, exactly when the second count is below
    100 hours; from 100 hours on the label is longer, the hours field
    being neither clamped nor cut. *)
Theorem format_time_length (s : Z) :
  0 ≤ s →
  (String.length (format_time s) = 8%nat ↔ s < 360000) ∧
  (360000 ≤ s → (9 ≤ String.length (format_time s))%nat) ∧
  (s < 360000 →
   String.get 2 (format_time s) = Some ":"%char ∧
   String.get 5 (format_time s) = Some ":"%char).
Proof.
  intros Hs. destruct (format_time_fields s Hs) as (Hh & Hm & Hsec).
  pose proof (format_02_length_small _ Hm) as Lm.
  pose proof (format_02_length_small _ Hsec) as Ls.
  assert (Hlen : String.length (format_time s)
                 = (String.length (format_02 (s / 3600)) + 6)%nat).
  { unfold format_time. rewrite !string_app_length, Lm, Ls. simpl. lia. }
  assert (Hsmall : s < 360000 → String.length (format_02 (s / 3600)) = 2%nat).
  { intros Hlt. apply format_02_length_small. Z.div_mod_to_equations. lia. }
  assert (Hlarge : 360000 ≤ s → (3 ≤ String.length (format_02 (s / 3600)))%nat).
  { intros Hge. apply format_02_length_large. Z.div_mod_to_equations. lia. }
  split; [| split].
  - split.
    + intros H8. destruct (Z.lt_ge_cases s 360000) as [? | Hge]; [done |].
      specialize (Hlarge Hge). lia.
    + intros Hlt. rewrite Hlen, (Hsmall Hlt). done.
  - intros Hge. specialize (Hlarge Hge). lia.
  - intros Hlt. specialize (Hsmall Hlt). unfold format_time.
    destruct (format_02 (s / 3600)) as [|a [|b [|c h]]]; try discriminate Hsmall.
    destruct (format_02 ((s mod 3600) / 60)) as [|a' [|b' [|c' m]]];
      try discriminate Lm.
    done.
Qed.

Lemma format_time_length_witness :
  0 ≤ 259 ∧
  (String.length (format_time 259) = 8%nat ↔ 259 < 360000) ∧
  (360000 ≤ 259 → (9 ≤ String.length (format_time 259))%nat) ∧
  (259 < 360000 →
   String.get 2 (format_time 259) = Some ":"%char ∧
   String.get 5 (format_time 259) = Some ":"%char).
Proof.
  assert (H : 0 ≤ 259) by lia.
  split; [exact H |]. exact (format_time_length 259 H).
Defined.

(** ** More on the segmenter *)

Lemma segment_lookup D n (i : nat) seg :
  map make_segment (spans_upto D n) !! i = Some seg ↔
  seg = make_segment (segment_bounds D (Z.of_nat i)) ∧ Z.of_nat i < n.
Proof.
  change (map ?f ?l) with (f <$> l).
  rewrite list_lookup_fmap, fmap_Some. setoid_rewrite spans_upto_lookup.
  split.
  - intros (sp & [-> ?] & ->). done.
  - intros [-> ?]. eauto.
Qed.

(** X3: for a duration [D] with [0 <= D <= 15 * 2^50] the segmenter
    returns [ceil(D / 15)] segments, and the segment of ordinal [i]
    starts at second [15 * i], with the label of [15 * i] as start label
    and the label of [min(15 * (i + 1), D)] as end label. *)
Theorem generate_time_segments_index (D : Z) :
  0 ≤ D ≤ exact_limit →
  ∃ segments,
    generate_time_segments D = Returned segments ∧
    Z.of_nat (length segments) = (D + 14) / 15 ∧
    ∀ i : nat, Z.of_nat i < (D + 14) / 15 →
      segments !! i
      = Some {| seg_Start_Time := format_time (Z.of_nat i * 15);
                seg_End_Time := format_time (Z.min ((Z.of_nat i + 1) * 15) D);
                seconds_start := Z.of_nat i * 15 |}.
Proof.
  intros HD. pose proof (total_segments_exact D HD) as Htotal.
  exists (map make_segment (spans_upto D ((D + 14) / 15))).
  split; [by apply generate_time_segments_total |]. split.
  - rewrite length_map, spans_upto_length.
    apply Z2Nat.id. apply Z.div_pos; lia.
  - intros i Hi. by apply segment_lookup.
Qed.

Lemma generate_time_segments_index_witness :
  0 ≤ 181 ≤ exact_limit ∧
  ∃ segments,
    generate_time_segments 181 = Returned segments ∧
    Z.of_nat (length segments) = (181 + 14) / 15 ∧
    ∀ i : nat, Z.of_nat i < (181 + 14) / 15 →
      segments !! i
      = Some {| seg_Start_Time := format_time (Z.of_nat i * 15);
                seg_End_Time := format_time (Z.min ((Z.of_nat i + 1) * 15) 181);
                seconds_start := Z.of_nat i * 15 |}.
Proof.
  assert (H : 0 ≤ 181 ≤ exact_limit) by (unfold exact_limit; lia).
  split; [exact H |]. exact (generate_time_segments_index 181 H).
Defined.

(** X4: a duration of at most one segment length, and not zero, gives
    exactly one segment, from second 0 to the duration. *)
Theorem generate_time_segments_single (D : Z) :
  0 < D ≤ SEGMENT_LENGTH →
  generate_time_segments D
  = Returned [{| seg_Start_Time := "00:00:00";
                 seg_End_Time := format_time D;
                 seconds_start := 0 |}].
Proof.
  unfold SEGMENT_LENGTH. intros HD.
  rewrite (generate_time_segments_total D 1).
  - unfold spans_upto. change (seqZ 0 1) with [0]. cbn [map].
    unfold make_segment, segment_bounds, SEGMENT_LENGTH.
    change ((0 + 1) * 15) with 15. change (0 * 15) with 0.
    rewrite Z.min_r by lia. reflexivity.
  - rewrite total_segments_exact by (unfold exact_limit; lia).
    f_equal. Z.div_mod_to_equations. lia.
Qed.

Lemma generate_time_segments_single_witness :
  0 < 7 ≤ SEGMENT_LENGTH ∧
  generate_time_segments 7
  = Returned [{| seg_Start_Time := "00:00:00";
                 seg_End_Time := format_time 7;
                 seconds_start := 0 |}].
Proof.
  assert (H : 0 < 7 ≤ SEGMENT_LENGTH) by (unfold SEGMENT_LENGTH; lia).
  split; [exact H |]. exact (generate_time_segments_single 7 H).
Defined.

(** *** Durations that are not positive *)

Lemma div_pos_raises n d x : Float.div_pos n d = Raised x → x = OverflowError.
Proof.
  unfold Float.div_pos. destruct (n =? 0); [done |].
  destruct (_ || _); [by intros [= <-] | done].
Qed.

Lemma div_pos_in_range n :
  0 < n ≤ 2 ^ 1000 → ∃ m e, Float.div_pos n 15 = Returned (m, e).
Proof.
  intros [Hn Hle]. unfold Float.div_pos.
  destruct (Z.eqb_spec n 0); [lia |].
  assert (He : Float.exponent n 15 ≤ 946).
  { unfold Float.exponent, Float.prec, Float.emin.
    change (Z.log2 15) with 3.
    assert (Z.log2 n ≤ 1000).
    { rewrite <- (Z.log2_pow2 1000) by lia. by apply Z.log2_le_mono. }
    destruct (_ <? _); lia. }
  unfold Float.emax.
  destruct (Z.ltb_spec 971 (Float.exponent n 15)); [lia |].
  destruct (Z.eqb_spec (Float.exponent n 15) 971); [lia |].
  cbn [orb andb]. eauto.
Qed.

Lemma ceil_nonpos m e : m ≤ 0 → Float.ceil (m, e) ≤ 0.
Proof.
  intros Hm. unfold Float.ceil. destruct (Z.leb_spec 0 e).
  - assert (0 < 2 ^ e) by (apply Z.pow_pos_nonneg; lia). nia.
  - assert (0 < 2 ^ (- e)) by (apply Z.pow_pos_nonneg; lia).
    assert (0 ≤ (- m) / 2 ^ (- e)) by (apply Z.div_pos; lia). lia.
Qed.

Lemma total_segments_negative D :
  D < 0 →
  (∃ n, total_segments D = Returned n ∧ n ≤ 0) ∨
  total_segments D = Raised OverflowError ∧ D < - 2 ^ 1000.
Proof.
  intros HD. unfold total_segments, Float.truediv, SEGMENT_LENGTH.
  change (15 =? 0) with false. cbv iota. change (Z.abs 15) with 15.
  destruct (Float.div_pos (Z.abs D) 15) as [[m e] | x] eqn:Hdiv.
  - left. eexists. split; [reflexivity |].
    destruct (FloatFacts.div_pos_correctly_rounded (Z.abs D) 15 m e
                ltac:(lia) ltac:(lia) Hdiv) as (_ & Hm & _).
    apply ceil_nonpos. rewrite (Z.sgn_neg D) by lia. change (Z.sgn 15) with 1. lia.
  - right. rewrite (div_pos_raises _ _ _ Hdiv). split; [reflexivity |].
    destruct (Z.lt_ge_cases D (- 2 ^ 1000)) as [? | Hge]; [done |].
    destruct (div_pos_in_range (Z.abs D) ltac:(lia)) as (m & e & Hret).
    rewrite Hret in Hdiv. discriminate Hdiv.
Qed.

(** X5: a duration that is not positive gives no segment and no error:
    for [-2^1000 <= D <= 0] the segmenter returns the empty list.  Below
    that the only other outcome is the [OverflowError] of the float
    quotient. *)
Theorem generate_time_segments_nonpositive (D : Z) :
  D ≤ 0 →
  (- 2 ^ 1000 ≤ D → generate_time_segments D = Returned []) ∧
  (generate_time_segments D = Returned [] ∨
   generate_time_segments D = Raised OverflowError).
Proof.
  intros HD.
  destruct (Z.eq_dec D 0) as [-> | Hnz].
  { split; [intros _ | left]; reflexivity. }
  destruct (total_segments_negative D ltac:(lia)) as [(n & Hn & Hle) | [Hraise Hlow]].
  - assert (Hret : generate_time_segments D = Returned []).
    { rewrite (generate_time_segments_total D n Hn).
      unfold spans_upto. by rewrite seqZ_nil. }
    split; [done | by left].
  - assert (Hret : generate_time_segments D = Raised OverflowError).
    { unfold generate_time_segments. by rewrite Hraise. }
    split; [lia | by right].
Qed.

Lemma generate_time_segments_nonpositive_witness :
  -5 ≤ 0 ∧
  (- 2 ^ 1000 ≤ -5 → generate_time_segments (-5) = Returned []) ∧
  (generate_time_segments (-5) = Returned [] ∨
   generate_time_segments (-5) = Raised OverflowError).
Proof.
  assert (H : -5 ≤ 0) by lia.
  split; [exact H |]. exact (generate_time_segments_nonpositive (-5) H).
Defined.

(** ** The labels of a fresh table *)

Lemma fresh_row_lookup D n role (i : nat) row :
  map (initial_row role) (map make_segment (spans_upto D n)) !! i = Some row ↔
  row = initial_row role (make_segment (segment_bounds D (Z.of_nat i))) ∧
  Z.of_nat i < n.
Proof.
  change (map (initial_row role) ?l) with (initial_row role <$> l).
  rewrite list_lookup_fmap, fmap_Some. setoid_rewrite segment_lookup.
  split.
  - intros (seg & [-> ?] & ->). done.
  - intros [-> ?]. eauto.
Qed.

(** X6: in the table created for a duration [D] with
    [0 <= D <= 15 * 2^50], the rows chain by their labels: the first row
    starts at "00:00:00", the end label of each row is the start label
    of the next, and the end label of the last row is the label of the
    duration. *)
Theorem fresh_table_labels_chain (D : Z) (role : string) :
  0 ≤ D ≤ exact_limit →
  ∃ segments,
    generate_time_segments D = Returned segments ∧
    let table := pd_DataFrame (initial_data role segments) in
    (∀ row, table !! 0%nat = Some row → Start_Time row = "00:00:00") ∧
    (∀ i row row',
        table !! i = Some row → table !! S i = Some row' →
        End_Time row = Start_Time row') ∧
    (∀ row, last table = Some row → End_Time row = format_time D).
Proof.
  intros HD. pose proof (total_segments_exact D HD) as Htotal.
  set (n := (D + 14) / 15) in *.
  assert (Hn : 15 * (n - 1) < D + 0 ≤ 15 * n).
  { subst n. Z.div_mod_to_equations. lia. }
  exists (map make_segment (spans_upto D n)).
  split; [by apply generate_time_segments_total |].
  unfold pd_DataFrame. rewrite initial_data_rows. cbv zeta.
  split; [| split].
  - intros row [-> _]%fresh_row_lookup. reflexivity.
  - intros i row row' [-> _]%fresh_row_lookup [-> Hi]%fresh_row_lookup.
    unfold initial_row, make_segment, segment_bounds, SEGMENT_LENGTH.
    cbn [End_Time Start_Time seg_End_Time seg_Start_Time]. f_equal. lia.
  - intros row Hlast. rewrite last_lookup in Hlast.
    pose proof Hlast as [-> Hi]%fresh_row_lookup.
    rewrite !length_map, spans_upto_length in Hi.
    unfold initial_row, make_segment, segment_bounds, SEGMENT_LENGTH.
    cbn [End_Time seg_End_Time]. f_equal.
    rewrite !length_map, spans_upto_length. lia.
Qed.

Lemma fresh_table_labels_chain_witness :
  0 ≤ 259 ≤ exact_limit ∧
  ∃ segments,
    generate_time_segments 259 = Returned segments ∧
    let table := pd_DataFrame (initial_data "Nicole" segments) in
    (∀ row, table !! 0%nat = Some row → Start_Time row = "00:00:00") ∧
    (∀ i row row',
        table !! i = Some row → table !! S i = Some row' →
        End_Time row = Start_Time row') ∧
    (∀ row, last table = Some row → End_Time row = format_time 259).
Proof.
  assert (H : 0 ≤ 259 ≤ exact_limit) by (unfold exact_limit; lia).
  split; [exact H |]. exact (fresh_table_labels_chain 259 "Nicole" H).
Defined.

(** X7: in the table created for a duration [D] with
    [0 <= D <= 15 * 2^50], no two rows have the same start label, and no
    two rows have the same end label: a row is identified by either. *)
Theorem fresh_table_labels_distinct (D : Z) (role : string) :
  0 ≤ D ≤ exact_limit →
  ∃ segments,
    generate_time_segments D = Returned segments ∧
    NoDup (Start_Time <$> pd_DataFrame (initial_data role segments)) ∧
    NoDup (End_Time <$> pd_DataFrame (initial_data role segments)).
Proof.
  intros HD. pose proof (total_segments_exact D HD) as Htotal.
  set (n := (D + 14) / 15) in *.
  assert (Hn : 15 * (n - 1) < D + 0 ≤ 15 * n).
  { subst n. Z.div_mod_to_equations. lia. }
  exists (map make_segment (spans_upto D n)).
  split; [by apply generate_time_segments_total |].
  unfold pd_DataFrame, spans_upto. rewrite initial_data_rows.
  change (map ?f ?l) with (f <$> l). rewrite <- !list_fmap_compose.
  split.
  - apply NoDup_fmap_2_strong; [| apply NoDup_seqZ].
    intros i j Hi%elem_of_seqZ Hj%elem_of_seqZ Heq. cbn in Heq.
    apply format_time_same_fields in Heq; unfold SEGMENT_LENGTH in *; try lia.
    destruct Heq as (Hh & Hm & Hsec). Z.div_mod_to_equations. lia.
  - apply NoDup_fmap_2_strong; [| apply NoDup_seqZ].
    intros i j Hi%elem_of_seqZ Hj%elem_of_seqZ Heq. cbn in Heq.
    apply format_time_same_fields in Heq; unfold SEGMENT_LENGTH in *; try lia.
    destruct Heq as (Hh & Hm & Hsec). Z.div_mod_to_equations. lia.
Qed.

Lemma fresh_table_labels_distinct_witness :
  0 ≤ 259 ≤ exact_limit ∧
  ∃ segments,
    generate_time_segments 259 = Returned segments ∧
    NoDup (Start_Time <$> pd_DataFrame (initial_data "Nicole" segments)) ∧
    NoDup (End_Time <$> pd_DataFrame (initial_data "Nicole" segments)).
Proof.
  assert (H : 0 ≤ 259 ≤ exact_limit) by (unfold exact_limit; lia).
  split; [exact H |]. exact (fresh_table_labels_distinct 259 "Nicole" H).
Defined.

(** ** Runs of the script *)

Lemma dict_get_missing {V} (d : list (string * V)) (key : string) :
  key ∉ d.*1 → dict_get d key = Raised (KeyError key).
Proof.
  induction d as [|[k v] d IH]; [done |].
  rewrite fmap_cons, not_elem_of_cons. intros [Hne Hnot]. cbn [dict_get].
  destruct (String.eqb_spec k key) as [-> | _]; [done | by apply IH].
Qed.

Lemma dict_get_found {V} (d : list (string * V)) (key : string) :
  key ∈ d.*1 → ∃ v, dict_get d key = Returned v ∧ (key, v) ∈ d.
Proof.
  induction d as [|[k v] d IH]; [by intros ?%elem_of_nil |].
  rewrite fmap_cons. intros Hin. cbn [dict_get].
  destruct (String.eqb_spec k key) as [-> | Hne].
  - exists v. split; [done | left].
  - apply elem_of_cons in Hin as [-> | Hin]; [done |].
    destruct (IH Hin) as (v' & Hget & Hv'). exists v'. split; [done | by right].
Qed.

Lemma catalogue_segments info :
  info ∈ VIDEO_DATA.*2 →
  ∃ segments, generate_time_segments (duration_sec info) = Returned segments.
Proof.
  intros Hin. repeat (apply elem_of_cons in Hin as [-> | Hin]);
    [| | by apply elem_of_nil in Hin];
    (destruct (generate_time_segments _) eqn:Hg;
     [eauto | vm_compute in Hg; discriminate Hg]).
Qed.

Lemma annotate_store inp st :
  (∃ e, annotate inp st = (Raised e, st) ∧
        ∀ st', annotate inp st' = (Raised e, st')) ∨
  (∃ segments,
      annotate inp st
      = (Returned (data_editor inp
                     (default (pd_DataFrame
                                 (initial_data (selected_role inp) segments))
                              (st !! session_key (selected_video inp)
                                                 (selected_role inp)))),
         committed inp segments st) ∧
      ∀ st', (annotate inp st').2 = committed inp segments st').
Proof.
  pose proof (annotate_spec inp) as H. cbv zeta in H.
  destruct (dict_get VIDEO_DATA (selected_video inp)) as [video_info | e];
    [| left; exists e; split; [apply H | intros st'; apply H]].
  destruct (generate_time_segments (duration_sec video_info)) as [segments | e];
    [| left; exists e; split; [apply H | intros st'; apply H]].
  right. exists segments. split; [apply H |].
  intros st'. by rewrite H.
Qed.

Lemma annotate_effect inp :
  (∀ st, (annotate inp st).2 = st) ∨
  (∃ segments, ∀ st, (annotate inp st).2 = committed inp segments st).
Proof.
  destruct (annotate_store inp ∅) as [(e & _ & H) | (segments & _ & H)].
  - left. intros st. by rewrite H.
  - right. by exists segments.
Qed.

(** X8: a video that is not in the catalogue makes the run raise
    [KeyError] on the video name, and the session state is left as it
    was. *)
Theorem main_unknown_video inp st :
  selected_video inp ∉ VIDEO_DATA.*1 →
  main inp st = (Raised (KeyError (selected_video inp)), st).
Proof.
  intros Hnot. pose proof (annotate_spec inp st) as H. cbv zeta in H.
  rewrite (dict_get_missing _ _ Hnot) in H.
  unfold main, mbind, script_bind. by rewrite H.
Qed.

Lemma main_unknown_video_witness :
  ("Parasite" ∉ VIDEO_DATA.*1) ∧
  (main Visits.unknown Runs.first_visit
   = (Raised (KeyError "Parasite"), Runs.first_visit)).
Proof.
  assert (H : "Parasite" ∉ VIDEO_DATA.*1).
  { intros Hin. repeat (apply elem_of_cons in Hin as [Hin | Hin];
                        [discriminate Hin |]).
    by apply elem_of_nil in Hin. }
  split; [exact H |].
  exact (main_unknown_video Visits.unknown Runs.first_visit H).
Defined.

(** X10: a run never removes a table from the session state, and adds
    at most the key of its own selection. *)
Theorem main_keeps_keys inp (st : session_state) :
  dom st ⊆ dom (main inp st).2 ∧
  dom (main inp st).2
  ⊆ dom st ∪ {[ session_key (selected_video inp) (selected_role inp) ]}.
Proof.
  rewrite main_store.
  destruct (annotate_store inp st) as [(e & -> & _) | (segments & -> & _)];
    cbn [snd].
  - split; [done | apply union_subseteq_l].
  - unfold committed. rewrite dom_insert_L.
    split; [apply union_subseteq_r | by rewrite (comm_L (∪))].
Qed.

(** X11: edits persist from one run to the next: after a run that
    reached its commit, a second run for the same video and role shows
    its editor the table the first run committed, not a fresh one, and
    commits what the second editor gives back. *)
Theorem reruns_compose inp1 inp2 (st : session_state) edited1 :
  selected_video inp2 = selected_video inp1 →
  selected_role inp2 = selected_role inp1 →
  (annotate inp1 st).1 = Returned edited1 →
  annotate inp2 (main inp1 st).2
  = (Returned (data_editor inp2 edited1),
     <[session_key (selected_video inp1) (selected_role inp1)
         := data_editor inp2 edited1]> st).
Proof.
  intros Hv Hr. rewrite main_store.
  pose proof (annotate_spec inp1 st) as H1. cbv zeta in H1.
  pose proof (annotate_spec inp2) as H2. cbv zeta in H2.
  rewrite Hv, Hr in H2.
  destruct (dict_get VIDEO_DATA (selected_video inp1)) as [info | e];
    [| by rewrite H1].
  destruct (generate_time_segments (duration_sec info)) as [segments | e];
    rewrite H1; [| done].
  cbn [fst snd]. intros [= <-]. rewrite H2.
  by rewrite lookup_insert_eq, insert_insert_eq.
Qed.

Lemma reruns_compose_witness :
  let edited1 := Runs.drop_last (pd_DataFrame (initial_data "Nicole"
                   (map make_segment (spans_upto 259 18)))) in
  selected_video (Runs.nicole (map (Runs.relabel "Happy")))
  = selected_video (Runs.nicole Runs.drop_last) ∧
  selected_role (Runs.nicole (map (Runs.relabel "Happy")))
  = selected_role (Runs.nicole Runs.drop_last) ∧
  (annotate (Runs.nicole Runs.drop_last) ∅).1 = Returned edited1 ∧
  annotate (Runs.nicole (map (Runs.relabel "Happy")))
           (main (Runs.nicole Runs.drop_last) ∅).2
  = (Returned (map (Runs.relabel "Happy") edited1),
     <[session_key "Marriage Story" "Nicole"
         := map (Runs.relabel "Happy") edited1]> ∅).
Proof.
  intros edited1.
  assert (H : (annotate (Runs.nicole Runs.drop_last) ∅).1 = Returned edited1)
    by (vm_compute; reflexivity).
  split; [reflexivity |]. split; [reflexivity |]. split; [exact H |].
  exact (reruns_compose (Runs.nicole Runs.drop_last)
           (Runs.nicole (map (Runs.relabel "Happy"))) ∅ edited1
           eq_refl eq_refl H).
Defined.

(** X12: runs for two selections with different session keys commute:
    in either order they leave the same session state. *)
Theorem runs_commute inp1 inp2 (st : session_state) :
  session_key (selected_video inp1) (selected_role inp1)
  ≠ session_key (selected_video inp2) (selected_role inp2) →
  (main inp2 (main inp1 st).2).2 = (main inp1 (main inp2 st).2).2.
Proof.
  intros Hne. rewrite !main_store.
  destruct (annotate_effect inp1) as [H1 | [segs1 H1]];
    destruct (annotate_effect inp2) as [H2 | [segs2 H2]];
    rewrite !H1, !H2; try done.
  unfold committed. rewrite !lookup_insert_ne by done. by apply insert_insert_ne.
Qed.

Lemma runs_commute_witness :
  (session_key "Marriage Story" "Nicole" ≠ session_key "2 Broke Girls" "Max") ∧
  (main (Visits.max id) (main (Runs.nicole Runs.drop_last) ∅).2).2
  = (main (Runs.nicole Runs.drop_last) (main (Visits.max id) ∅).2).2.
Proof.
  assert (H : session_key "Marriage Story" "Nicole"
              ≠ session_key "2 Broke Girls" "Max") by discriminate.
  split; [exact H |].
  exact (runs_commute (Runs.nicole Runs.drop_last) (Visits.max id) ∅ H).
Defined.

(** ** Session keys of names without an underscore *)

Lemma underscore_free_cons c s :
  underscore_free (String c s) = negb (Ascii.eqb c "_") && underscore_free s.
Proof. reflexivity. Qed.

Lemma underscore_split v v' r r' :
  underscore_free v = true → underscore_free v' = true →
  v +:+ "_" +:+ r = v' +:+ "_" +:+ r' → v = v' ∧ r = r'.
Proof.
  revert v'. induction v as [|c v IH]; intros [|c' v'] Hv Hv' Heq;
    simpl in Heq.
  - injection Heq as Heq. simpl in Heq. by subst.
  - injection Heq as <- _. rewrite underscore_free_cons in Hv'. discriminate Hv'.
  - injection Heq as -> _. rewrite underscore_free_cons in Hv. discriminate Hv.
  - injection Heq as -> Heq.
    rewrite underscore_free_cons in Hv, Hv'.
    apply andb_prop in Hv as [_ Hv]. apply andb_prop in Hv' as [_ Hv'].
    by destruct (IH v' Hv Hv' Heq) as [-> ->].
Qed.

Lemma catalogue_underscore_free :
  Forall (λ video, underscore_free video = true) VIDEO_DATA.*1.
Proof. repeat constructor. Qed.

(** X13: on video names without an underscore the session key is
    injective: two selections with the same key have the same video and
    the same role.  The names of the catalogue have no underscore. *)
Theorem session_key_inj video role video' role' :
  underscore_free video = true → underscore_free video' = true →
  session_key video role = session_key video' role' →
  video = video' ∧ role = role'.
Proof.
  intros Hv Hv' Heq. unfold session_key in Heq.
  apply (inj (String.app "data_")) in Heq.
  by apply underscore_split.
Qed.

Lemma session_key_inj_witness :
  underscore_free "Marriage Story" = true ∧
  underscore_free "Marriage Story" = true ∧
  session_key "Marriage Story" "Nicole_1" = session_key "Marriage Story" "Nicole_1" ∧
  "Marriage Story" = "Marriage Story" ∧ "Nicole_1" = "Nicole_1".
Proof.
  split; [reflexivity |]. split; [reflexivity |]. split; [reflexivity |].
  exact (session_key_inj "Marriage Story" "Nicole_1" "Marriage Story" "Nicole_1"
           eq_refl eq_refl eq_refl).
Defined.

(** ** More on the pending count *)

Lemma rows_pending_app df1 df2 :
  rows_pending (df1 ++ df2) = (rows_pending df1 + rows_pending df2)%nat.
Proof.
  induction df1 as [|row df1 IH]; [done |]. cbn [app rows_pending].
  destruct (String.eqb _ _); lia.
Qed.

Lemma rows_pending_le df : (rows_pending df ≤ length df)%nat.
Proof.
  induction df as [|row df IH]; [done |]. cbn [rows_pending length].
  destruct (String.eqb _ _); lia.
Qed.

Lemma rows_pending_all df :
  rows_pending df = length df ↔ Forall (λ row, Emotion_Label row = PENDING) df.
Proof.
  induction df as [|row df IH]; [by split; [constructor |] |].
  rewrite Forall_cons. cbn [rows_pending length].
  pose proof (rows_pending_le df).
  destruct (String.eqb_spec (Emotion_Label row) PENDING) as [Heq | Hne].
  - rewrite <- IH. split; [intros [= ?]; done | intros [_ ->]; done].
  - split; [lia | by intros [? _]].
Qed.

Lemma rows_pending_zero df :
  rows_pending df = 0%nat ↔ Forall (λ row, Emotion_Label row ≠ PENDING) df.
Proof.
  induction df as [|row df IH]; [by split; [constructor |] |].
  rewrite Forall_cons. cbn [rows_pending].
  destruct (String.eqb_spec (Emotion_Label row) PENDING) as [Heq | Hne].
  - split; [discriminate | by intros [? _]].
  - rewrite IH. split; [done | by intros [_ ?]].
Qed.

(** X14: the pending count lies between 0 and the number of rows; it is
    the number of rows exactly when every row is pending, and 0 exactly
    when no row is. *)
Theorem pending_count_bounds df :
  0 ≤ pending_count df ≤ Z.of_nat (length df) ∧
  (pending_count df = Z.of_nat (length df)
   ↔ Forall (λ row, Emotion_Label row = PENDING) df) ∧
  (pending_count df = 0 ↔ Forall (λ row, Emotion_Label row ≠ PENDING) df).
Proof.
  rewrite pending_count_rows. pose proof (rows_pending_le df).
  split; [lia |]. split.
  - rewrite <- rows_pending_all. lia.
  - rewrite <- rows_pending_zero. lia.
Qed.

(** X15: replacing the row at a position changes the pending count by
    the difference of the two rows' weights: labelling a pending row
    lowers the count by one, setting a row back to pending raises it by
    one, and an edit that keeps the row's label (a change of notes)
    leaves it. *)
Theorem pending_count_edit (df : DataFrame) (i : nat) (row row' : Row) :
  df !! i = Some row →
  pending_count (<[i := row']> df)
  = pending_count df - pending_weight row + pending_weight row'.
Proof.
  intros Hi. pose proof (lookup_lt_Some _ _ _ Hi) as Hlt.
  rewrite insert_take_drop by done.
  replace (pending_count df)
    with (pending_count (take i df ++ row :: drop (S i) df))
    by (by rewrite take_drop_middle).
  rewrite !pending_count_rows, !rows_pending_app. cbn [rows_pending].
  unfold pending_weight.
  destruct (String.eqb (Emotion_Label row) PENDING),
           (String.eqb (Emotion_Label row') PENDING); lia.
Qed.

Lemma pending_count_edit_witness :
  let row := initial_row "Nicole" (make_segment (0, 15)) in
  let row' := Runs.relabel "Not Present (角色未出現)" row in
  [row; row] !! 1%nat = Some row ∧
  pending_count (<[1%nat := row']> [row; row])
  = pending_count [row; row] - pending_weight row + pending_weight row'.
Proof.
  intros row row'.
  assert (H : [row; row] !! 1%nat = Some row) by reflexivity.
  split; [exact H |]. exact (pending_count_edit [row; row] 1 row row' H).
Defined.

(** ** What a run shows *)

(** X16: when a run returns, what it shows is computed from the table
    it leaves stored under the key of the selection: the message is the
    status of that table's pending count, the download holds the
    workbook of that table, and the file is named after the role
    alone. *)
Theorem main_output_consistent inp (st st' : session_state) out :
  main inp st = (Returned out, st') →
  ∃ edited,
    st' !! session_key (selected_video inp) (selected_role inp) = Some edited ∧
    message out = status (pending_count edited) ∧
    convert_df_to_excel edited = Returned (download_data (download_button out)) ∧
    file_name (download_button out) = selected_role inp +:+ ".xlsx".
Proof.
  unfold main, mbind, script_bind.
  pose proof (annotate_spec inp st) as H. cbv zeta in H.
  destruct (dict_get VIDEO_DATA (selected_video inp)) as [info | e];
    [| by rewrite H].
  destruct (generate_time_segments (duration_sec info)) as [segments | e];
    rewrite H; [| done].
  unfold export, lift, mbind, script_bind, mret, script_ret.
  destruct (convert_df_to_excel _) as [workbook |] eqn:Hwb; [| done].
  intros [= <- <-]. eexists. split; [apply lookup_insert_eq |].
  cbn [message download_button download_data file_name]. by rewrite Hwb.
Qed.

Lemma main_output_consistent_witness :
  main (Runs.nicole Visits.clear) ∅
  = (Returned Visits.cleared_output, {[ Runs.nicole_key := [] ]}) ∧
  ∃ edited,
    ({[ Runs.nicole_key := [] ]} : session_state)
      !! session_key "Marriage Story" "Nicole" = Some edited ∧
    message Visits.cleared_output = status (pending_count edited) ∧
    convert_df_to_excel edited
    = Returned (download_data (download_button Visits.cleared_output)) ∧
    file_name (download_button Visits.cleared_output) = "Nicole" +:+ ".xlsx".
Proof.
  assert (H : main (Runs.nicole Visits.clear) ∅
              = (Returned Visits.cleared_output, {[ Runs.nicole_key := [] ]}))
    by (vm_compute; reflexivity).
  split; [exact H |].
  exact (main_output_consistent (Runs.nicole Visits.clear) ∅ _ _ H).
Defined.

(** ** The count in the warning *)

Lemma to_int_nonnil (n : Z) :
  Z.to_int n ≠ Decimal.Pos Decimal.Nil ∧ Z.to_int n ≠ Decimal.Neg Decimal.Nil.
Proof.
  destruct n as [|p|p]; cbn; split; try discriminate;
    intros [= H]; by apply DecimalPos.Unsigned.to_uint_nonnil in H.
Qed.

Lemma str_inj (n n' : Z) : str n = str n' → n = n'.
Proof.
  unfold str. intros Heq. apply (f_equal NilZero.int_of_string) in Heq.
  destruct (to_int_nonnil n) as [? ?]. destruct (to_int_nonnil n') as [? ?].
  rewrite !NilZero.isi in Heq by done.
  injection Heq as Heq. by apply DecimalZ.to_int_inj.
Qed.

(** X17: the status shown determines the pending count: two counts with
    the same status message are equal, so the warning carries the exact
    count and only the count 0 gives the success message. *)
Theorem status_count_inj (n n' : Z) :
  0 ≤ n → 0 ≤ n' → status n = status n' → n = n'.
Proof.
  intros Hn Hn'. unfold status.
  destruct (Z.ltb_spec 0 n), (Z.ltb_spec 0 n'); try discriminate; [| lia].
  intros [= Heq].
  apply (inj (String.app _)) in Heq.
  apply string_app_inj_r in Heq. by apply str_inj.
Qed.

Lemma status_count_inj_witness :
  0 ≤ 18 ∧ 0 ≤ 9 * 2 ∧ status 18 = status (9 * 2) ∧ 18 = 9 * 2.
Proof.
  assert (H : 0 ≤ 18) by lia.
  assert (H' : 0 ≤ 9 * 2) by lia.
  assert (Heq : status 18 = status (9 * 2)) by reflexivity.
  split; [exact H |]. split; [exact H' |]. split; [exact Heq |].
  exact (status_count_inj 18 (9 * 2) H H' Heq).
Defined.

(** ** Durations out of the range of the float *)

Lemma div_pos_overflow n :
  2 ^ 1028 ≤ n → Float.div_pos n 15 = Raised OverflowError.
Proof.
  intros Hn.
  assert (Hpos : 0 < n).
  { apply Z.lt_le_trans with (2 ^ 1028); [by apply Z.pow_pos_nonneg | done]. }
  unfold Float.div_pos. destruct (Z.eqb_spec n 0); [lia |].
  assert (He : 972 ≤ Float.exponent n 15).
  { unfold Float.exponent, Float.prec, Float.emin.
    change (Z.log2 15) with 3.
    assert (1028 ≤ Z.log2 n) by (by apply Z.log2_le_pow2).
    destruct (_ <? _); lia. }
  unfold Float.emax.
  destruct (Z.ltb_spec 971 (Float.exponent n 15)); [done | lia].
Qed.

(** X18: a duration of [2^1028] seconds or more makes the segmenter
    raise [OverflowError]: the quotient by 15 is too large for a float.
    Up to [2^1000] seconds the quotient is in range and the segmenter
    returns. *)
Theorem generate_time_segments_overflow (D : Z) :
  (2 ^ 1028 ≤ D → generate_time_segments D = Raised OverflowError) ∧
  (0 ≤ D ≤ 2 ^ 1000 → ∃ segments, generate_time_segments D = Returned segments).
Proof.
  split.
  - intros HD.
    assert (Hpos : 0 < D).
    { apply Z.lt_le_trans with (2 ^ 1028); [by apply Z.pow_pos_nonneg | done]. }
    unfold generate_time_segments, total_segments, Float.truediv, SEGMENT_LENGTH.
    change (15 =? 0) with false. cbv iota. change (Z.abs 15) with 15.
    rewrite (Z.abs_eq D) by lia. by rewrite div_pos_overflow.
  - intros [HD0 HD].
    destruct (Z.eq_dec D 0) as [-> | Hnz]; [by eexists |].
    destruct (div_pos_in_range D ltac:(lia)) as (m & e & Hdiv).
    unfold generate_time_segments, total_segments, Float.truediv, SEGMENT_LENGTH.
    change (15 =? 0) with false. cbv iota. change (Z.abs 15) with 15.
    rewrite (Z.abs_eq D) by lia. rewrite Hdiv. by eexists.
Qed.

Lemma generate_time_segments_overflow_witness :
  2 ^ 1028 ≤ 2 ^ 1028 ∧
  generate_time_segments (2 ^ 1028) = Raised OverflowError ∧
  0 ≤ 259 ≤ 2 ^ 1000 ∧
  ∃ segments, generate_time_segments 259 = Returned segments.
Proof.
  assert (H : 2 ^ 1028 ≤ 2 ^ 1028) by apply Z.le_refl.
  assert (H' : 0 ≤ 259 ≤ 2 ^ 1000).
  { split; [lia |]. apply Z.le_trans with (2 ^ 9); [by vm_compute |].
    apply Z.pow_le_mono_r; lia. }
  split; [exact H |].
  split; [exact (proj1 (generate_time_segments_overflow (2 ^ 1028)) H) |].
  split; [exact H' |].
  exact (proj2 (generate_time_segments_overflow 259) H').
Defined.


(** ** The run on a video of the catalogue *)

Lemma catalogue_duration video info :
  (video, info) ∈ VIDEO_DATA → 0 ≤ duration_sec info ≤ exact_limit.
Proof.
  intros Hin. unfold exact_limit.
  repeat (apply elem_of_cons in Hin as [[= _ ->] | Hin]; [cbn; lia |]).
  by apply elem_of_nil in Hin.
Qed.

(** X9: for a video of the catalogue the run reaches the commit without
    an exception, for every role, editor and session state.  The
    segmenter returns the [ceil(duration / 15)] segments of the video's
    duration; the editor is shown the table stored under the key or,
    when none is stored, the fresh table of these segments; and what
    the editor gives back is stored under the key. *)
Theorem annotate_known_video inp (st : session_state) :
  selected_video inp ∈ VIDEO_DATA.*1 →
  ∃ info segments,
    dict_get VIDEO_DATA (selected_video inp) = Returned info ∧
    generate_time_segments (duration_sec info) = Returned segments ∧
    Z.of_nat (length segments) = (duration_sec info + 14) / 15 ∧
    let key := session_key (selected_video inp) (selected_role inp) in
    let fresh := pd_DataFrame (initial_data (selected_role inp) segments) in
    let current := default fresh (st !! key) in
    length fresh = length segments ∧
    annotate inp st
    = (Returned (data_editor inp current), <[key := data_editor inp current]> st).
Proof.
  intros Hin. pose proof (annotate_spec inp st) as H. cbv zeta in H.
  destruct (dict_get_found _ _ Hin) as (info & Hget & Hinfo).
  pose proof (catalogue_duration _ _ Hinfo) as Hd.
  pose proof (total_segments_exact _ Hd) as Htotal.
  pose proof (generate_time_segments_total _ _ Htotal) as Hsegs.
  rewrite Hget, Hsegs in H.
  exists info, (map make_segment
                  (spans_upto (duration_sec info) ((duration_sec info + 14) / 15))).
  split; [done |]. split; [done |]. split.
  - rewrite length_map, spans_upto_length. apply Z2Nat.id, Z.div_pos; lia.
  - cbv zeta. split; [| exact H].
    unfold pd_DataFrame. by rewrite initial_data_rows, length_map.
Qed.

Lemma annotate_known_video_witness :
  ("2 Broke Girls" ∈ VIDEO_DATA.*1) ∧
  ∃ info segments,
    dict_get VIDEO_DATA "2 Broke Girls" = Returned info ∧
    generate_time_segments (duration_sec info) = Returned segments ∧
    Z.of_nat (length segments) = (duration_sec info + 14) / 15 ∧
    let key := session_key "2 Broke Girls" "Max" in
    let fresh := pd_DataFrame (initial_data "Max" segments) in
    let current := default fresh (Runs.first_visit !! key) in
    length fresh = length segments ∧
    annotate (Visits.max Runs.drop_last) Runs.first_visit
    = (Returned (Runs.drop_last current),
       <[key := Runs.drop_last current]> Runs.first_visit).
Proof.
  assert (H : "2 Broke Girls" ∈ VIDEO_DATA.*1) by repeat constructor.
  split; [exact H |].
  exact (annotate_known_video (Visits.max Runs.drop_last) Runs.first_visit H).
Defined.

(** ** The pending count, with its column lookup *)

Lemma pending_count_of_columns columns (df : DataFrame) :
  "Emotion Label" ∈ columns →
  pending_count_of columns df = Returned (pending_count df).
Proof.
  intros Hin. unfold pending_count_of, getitem_Emotion_Label.
  assert (existsb (String.eqb "Emotion Label") columns = true) as ->.
  { apply existsb_exists. exists "Emotion Label".
    split; [by apply list_elem_of_In | apply String.eqb_refl]. }
  unfold mbind, outcome_bind, mret, outcome_ret, pending_count. do 3 f_equal.
  induction df as [|row df IH]; [done |].
  cbn [map]. rewrite !filter_cons.
  destruct (decide (Emotion_Label row = _)); cbn [length]; by rewrite IH.
Qed.

Lemma DataFrame_columns_label data :
  data ≠ [] → "Emotion Label" ∈ DataFrame_columns data.
Proof. destruct data; [done |]. intros _. cbn. repeat constructor. Qed.

(** *** The count in the warning *)

Lemma str_positive (p : positive) :
  str (Z.pos p) = NilEmpty.string_of_uint (Pos.to_uint p).
Proof.
  unfold str. cbn [Z.to_int NilZero.string_of_int].
  pose proof (DecimalPos.Unsigned.to_uint_nonnil p) as H.
  unfold NilZero.string_of_uint. by destruct (Pos.to_uint p).
Qed.

Lemma to_uint_normal (p : positive) :
  Decimal.unorm (Pos.to_uint p) = Pos.to_uint p.
Proof.
  rewrite <- DecimalPos.Unsigned.to_of.
  by rewrite DecimalPos.Unsigned.of_to.
Qed.

Lemma to_uint_no_leading_zero (p : positive) d : Pos.to_uint p ≠ Decimal.D0 d.
Proof.
  intros Hd. pose proof (to_uint_normal p) as Hn.
  rewrite Hd, DecimalFacts.unorm_D0 in Hn.
  assert (d = Decimal.Nil ∨ d ≠ Decimal.Nil) as [-> | Hnil]
    by (destruct d; [by left | right; discriminate ..]).
  - by apply (DecimalPos.Unsigned.to_uint_nonzero p).
  - pose proof (DecimalFacts.nb_digits_unorm d Hnil) as Hle.
    rewrite Hn in Hle. cbn [Decimal.nb_digits] in Hle. lia.
Qed.

Lemma first_digit_zero d :
  String.get 0 (NilEmpty.string_of_uint d) = Some "0"%char →
  ∃ d', d = Decimal.D0 d'.
Proof. destruct d; try discriminate. eauto. Qed.

(** The digits of a positive count: they read back as the count, and
    they are its decimal writing, not empty and without a leading
    zero. *)
Lemma str_reads_back (n : Z) :
  0 < n →
  parse_digits (str n) = Some n ∧
  str n ≠ EmptyString ∧
  String.get 0 (str n) ≠ Some "0"%char.
Proof.
  intros Hn. destruct n as [|p|p]; try lia. rewrite str_positive.
  split; [| split].
  - unfold parse_digits. rewrite NilEmpty.usu.
    cbn [fmap option_fmap option_map]. f_equal.
    change (N.of_uint (Pos.to_uint p)) with (Pos.of_uint (Pos.to_uint p)).
    by rewrite DecimalPos.Unsigned.of_to.
  - pose proof (DecimalPos.Unsigned.to_uint_nonnil p) as H.
    by destruct (Pos.to_uint p).
  - intros [d' Hd]%first_digit_zero. by apply (to_uint_no_leading_zero p d').
Qed.

(** C5 (as stated) fails on the table created from no segment, the one
    of a duration 0: the frame built from no record has no column, and
    the count raises [KeyError] instead of giving the segment count 0. *)
Lemma pending_count_no_segments :
  generate_time_segments 0 = Returned [] ∧
  pending_count_of (DataFrame_columns (initial_data "Nicole" []))
                   (pd_DataFrame (initial_data "Nicole" []))
  = Raised (KeyError "Emotion Label").
Proof. split; reflexivity. Qed.

(** C5 (as amended): on every table that has the label column, the
    pending count is the number of rows whose label is the pending
    sentinel; on a freshly created table of at least one segment it is
    the number of segments; once a table whose labels are all different
    from the sentinel is committed, the count of the stored table is 0;
    the status is the success message exactly when the count is 0, and
    otherwise the warning whose text holds, between its two constant
    parts, the decimal digits of the count; and a run that reaches its
    commit shows the status of the table it committed, whether or not
    the export that follows returns. *)
Theorem pending_count_spec :
  (∀ columns (df : DataFrame),
      "Emotion Label" ∈ columns →
      pending_count_of columns df = Returned (Z.of_nat (rows_pending df)) ∧
      pending_count df = Z.of_nat (rows_pending df)) ∧
  (∀ role segments,
      segments ≠ [] →
      pending_count_of (DataFrame_columns (initial_data role segments))
                       (pd_DataFrame (initial_data role segments))
      = Returned (Z.of_nat (length segments))) ∧
  (∀ key (df : DataFrame) (st : session_state),
      Forall (λ row, Emotion_Label row ≠ PENDING) df →
      (pending_count_of COLUMNS <$> (session_set key df st).2 !! key)
      = Some (Returned 0)) ∧
  (∀ n,
      0 ≤ n →
      (is_complete (status n) = true ↔ n = 0) ∧
      (n ≠ 0 →
       ∃ digits,
         status n = st_warning (WARNING_BEFORE +:+ digits +:+ WARNING_AFTER) ∧
         parse_digits digits = Some n ∧
         digits ≠ EmptyString ∧
         String.get 0 digits ≠ Some "0"%char)) ∧
  (∀ inp (st : session_state) edited,
      (annotate inp st).1 = Returned edited →
      (shown_status inp st).1 = Returned (status (pending_count edited)) ∧
      (main inp st).2 !! session_key (selected_video inp) (selected_role inp)
      = Some edited ∧
      ∀ out, (main inp st).1 = Returned out →
             message out = status (pending_count edited)).
Proof.
  split; [| split; [| split; [| split]]].
  - intros columns df Hin.
    by rewrite pending_count_of_columns, pending_count_rows.
  - intros role segments Hne.
    rewrite pending_count_of_columns.
    + unfold pd_DataFrame.
      by rewrite pending_count_rows, initial_data_rows, rows_pending_initial.
    + apply DataFrame_columns_label. rewrite initial_data_rows.
      by destruct segments.
  - intros key df st Hdf. unfold session_set. cbn [snd].
    rewrite lookup_insert_eq. cbn [fmap option_fmap option_map].
    rewrite pending_count_of_columns by repeat constructor.
    by rewrite pending_count_rows, rows_pending_none.
  - intros n Hn. unfold status.
    destruct (Z.ltb_spec 0 n) as [Hpos | Hle]; cbn [is_complete].
    + split; [split; [discriminate | lia] |]. intros _.
      destruct (str_reads_back n Hpos) as (Hread & Hnonempty & Hlead).
      exists (str n). by repeat split.
    + split; [split; [lia | done] | lia].
  - intros inp st edited Hedited.
    pose proof (main_store inp st) as Hstore.
    unfold shown_status, main, mbind, script_bind in *.
    destruct (annotate inp st) as [[edited' | e] st'] eqn:Hann;
      cbn [fst] in Hedited; [| discriminate Hedited].
    injection Hedited as ->. split; [done |]. split.
    + rewrite Hstore. cbn [snd].
      pose proof (annotate_spec inp st) as H. cbv zeta in H.
      destruct (dict_get VIDEO_DATA (selected_video inp)) as [info | e];
        [| by rewrite H in Hann].
      destruct (generate_time_segments (duration_sec info)) as [segments | e];
        rewrite H in Hann; [| done].
      injection Hann as <- <-. apply lookup_insert_eq.
    + intros out Hout.
      unfold export, lift, mbind, script_bind, mret, script_ret in Hout.
      destruct (convert_df_to_excel edited); cbn [fst] in Hout; [| discriminate].
      by injection Hout as <-.
Qed.

Lemma pending_count_spec_witness :
  let segments := [make_segment (0, 15); make_segment (15, 30)] in
  segments ≠ [] ∧
  pending_count_of (DataFrame_columns (initial_data "Nicole" segments))
                   (pd_DataFrame (initial_data "Nicole" segments))
  = Returned (Z.of_nat (length segments)).
Proof.
  intros segments.
  assert (H : segments ≠ []) by discriminate.
  split; [exact H |].
  exact (proj1 (proj2 pending_count_spec) "Nicole" segments H).
Defined.

(** ** The workbook of a table *)

















